(** * Material export: cache keys, output-socket lookup, sync and sync_update

    Shallow embedding of [rprblender/export/material.py].

    The module keeps a registry of compiled materials inside the renderer
    context ([rpr_context.materials], a Python dict) and fills it on demand:
    [sync] looks the material up under a key built from its name and the
    requested output socket (the branch that adds the consuming object's UV
    set names does not complete on Blender data), and compiles the node
    graph on a miss; [sync_update] drops and rebuilds the Surface and
    Displacement entries.

    Python values that serve as dictionary keys are modelled by [PyVal]
    (strings and tuples, compared structurally as Python's [==] does), the
    registry by a [gmap], exceptions and the mutable context by a small
    state-and-exception monad [Exec].  Calls of the logger are left out. *)

From Stdlib Require Import String List ZArith.
From stdpp Require Import base decidable countable option list strings gmap fin_maps.

Open Scope string_scope.

(** ** Python values used as registry keys *)

(** A material identity is a [str] or a tuple [(str, tuple of str)]; a key is
    an identity or a tuple [(identity, str)].  Both live in this type. *)
#[warnings="-register-all"]
Inductive PyVal : Type :=
  | PStr (s : string)
  | PTuple (items : list PyVal).

Module PyVal_countable.

(** Encoding into stdpp's generic trees, from which decidable equality and
    countability are inherited. *)
Fixpoint to_tree (v : PyVal) : gen_tree string :=
  match v with
  | PStr s => GenLeaf s
  | PTuple items => GenNode 0 (map to_tree items)
  end.

Fixpoint of_tree (t : gen_tree string) : PyVal :=
  match t with
  | GenLeaf s => PStr s
  | GenNode _ ts => PTuple (map of_tree ts)
  end.

(** Induction principle that also gives the hypothesis on tuple items. *)
Fixpoint PyVal_nested_ind (P : PyVal → Prop)
    (Hstr : ∀ s, P (PStr s))
    (Htup : ∀ items, Forall P items → P (PTuple items))
    (v : PyVal) {struct v} : P v :=
  match v with
  | PStr s => Hstr s
  | PTuple items =>
      Htup items
        ((fix go (l : list PyVal) : Forall P l :=
            match l with
            | [] => @List.Forall_nil PyVal P
            | x :: l' =>
                @List.Forall_cons PyVal P x l' (PyVal_nested_ind P Hstr Htup x) (go l')
            end) items)
  end.

Lemma of_to_tree (v : PyVal) : of_tree (to_tree v) = v.
Proof.
  induction v as [s | items IH] using PyVal_nested_ind; simpl; [done |].
  f_equal. rewrite map_map.
  induction IH as [| x l Hx _ IHl]; simpl; [done |].
  by rewrite Hx, IHl.
Qed.

Lemma to_tree_inj (v w : PyVal) : to_tree v = to_tree w → v = w.
Proof.
  intros H. rewrite <- (of_to_tree v), <- (of_to_tree w). by rewrite H.
Qed.

End PyVal_countable.

#[global] Instance PyVal_eq_dec : EqDecision PyVal.
Proof.
  intros v w.
  destruct (decide (PyVal_countable.to_tree v = PyVal_countable.to_tree w)) as [E | E].
  - left. by apply PyVal_countable.to_tree_inj.
  - right. intros ->. by apply E.
Defined.

#[global] Instance PyVal_countable_inst : Countable PyVal :=
  inj_countable' PyVal_countable.to_tree PyVal_countable.of_tree
    PyVal_countable.of_to_tree.

(** Python's [tuple(...)] of a sequence of strings. *)
Definition str_tuple (names : list string) : PyVal := PTuple (map PStr names).

(** ** [key]

    [input_socket_key == 'Surface'] is string equality. *)
Definition key (material : PyVal) (input_socket_key : string) : PyVal :=
  if String.eqb input_socket_key "Surface" then material
  else PTuple [material; PStr input_socket_key].

(** The values [sync] and [sync_update] pass as [material] to [key]:
    [material.name] or [(material.name, obj.data.rpr.uv_sets_names)]. *)
Definition name_identity (name : string) : PyVal := PStr name.

Definition uv_identity (name : string) (uv_sets_names : list string) : PyVal :=
  PTuple [PStr name; str_tuple uv_sets_names].

Inductive is_identity : PyVal → Prop :=
  | is_identity_name (name : string) : is_identity (name_identity name)
  | is_identity_uv (name : string) (uvs : list string) :
      is_identity (uv_identity name uvs).

(** ** Host scene data

    The parts of Blender's data the module reads.  A node is referred to by
    its name, which is unique inside a node tree. *)

Record NodeLink : Type := {
  is_valid : bool;
  from_node : string;
}.

Record NodeSocket : Type := {
  is_linked : bool;
  links : list NodeLink;
}.

(** [inputs] is a collection indexed by socket name ([inputs[name]]). *)
Record Node : Type := {
  node_name : string;
  bl_idname : string;
  is_active_output : bool;
  inputs : list (string * NodeSocket);
}.

Record NodeTree : Type := {
  nodes : list Node;
}.

(** [node_tree] is [None] for a material without a node graph. *)
Record Material : Type := {
  name : string;
  node_tree : option NodeTree;
}.

(** The value passed as [obj].  The parameter is annotated
    [bpy.types.Object] and tested with [isinstance(obj, bpy.types.Mesh)].
    A [bpy.types.Object] is no instance of [bpy.types.Mesh]; its [data] may
    be a mesh, whose [rpr.uv_sets_names] is a tuple of strings in UV-layer
    order ([None] here when the data is no mesh).  A [bpy.types.Mesh] is the
    datablock itself: it passes the test, has UV sets of its own, and has no
    attribute [data]. *)
Inductive Object : Type :=
  | BlenderObject (data_uv_sets_names : option (list string))
  | MeshData (uv_sets_names : list string).

(** ** Exceptions *)

Inductive Exn : Type :=
  | AttributeError
  | KeyError
  | IndexError.

Inductive Res (A : Type) : Type :=
  | Ok (a : A)
  | Raise (e : Exn).
Arguments Ok {A} a.
Arguments Raise {A} e.

(** Subscription of a name-indexed collection: the first item of that name,
    [KeyError] when there is none. *)
Fixpoint getitem {A : Type} (coll : list (string * A)) (k : string) : Res A :=
  match coll with
  | [] => Raise KeyError
  | (k', x) :: rest => if String.eqb k' k then Ok x else getitem rest k
  end.

(** ** Node lookup *)

Definition is_material_output (node : Node) : bool :=
  String.eqb (bl_idname node) "ShaderNodeOutputMaterial" && is_active_output node.

(** [next((node for node in nodes if ...), None)] is the first match. *)
Definition get_material_output_node (material : Material) : option Node :=
  match node_tree material with
  | None => None
  | Some tree => List.find is_material_output (nodes tree)
  end.

(** The generator's source [material.node_tree.nodes] is evaluated when the
    generator is built, so a material without a node tree raises here. *)
Definition get_material_nodes_by_type (material : Material) (idname : string)
    : Res (list Node) :=
  match node_tree material with
  | None => Raise AttributeError
  | Some tree =>
      Ok (List.filter (λ node, String.eqb (bl_idname node) idname) (nodes tree))
  end.

Definition has_uv_map_node (material : Material) : Res bool :=
  match get_material_nodes_by_type material "ShaderNodeUVMap" with
  | Raise e => Raise e
  | Ok found =>
      match found with
      | [] => Ok false
      | _ :: _ => Ok true
      end
  end.

Definition get_material_input_node (material : Material) (input_socket_key : string)
    : Res (option string) :=
  match get_material_output_node material with
  | None => Ok None
  | Some output_node =>
      match getitem (inputs output_node) input_socket_key with
      | Raise e => Raise e
      | Ok socket_in =>
          if negb (is_linked socket_in) then Ok None
          else
            match links socket_in with
            | [] => Raise IndexError
            | link0 :: _ =>
                if negb (is_valid link0) then Ok None
                else Ok (Some (from_node link0))
            end
      end
  end.

(** [isinstance(obj, bpy.types.Mesh)]; [obj] defaults to [None]. *)
Definition isinstance_Mesh (obj : option Object) : bool :=
  match obj with
  | Some (MeshData _) => true
  | Some (BlenderObject _) => false
  | None => false
  end.

(** [obj.data.rpr.uv_sets_names]: readable on an object whose data is a
    mesh; [AttributeError] on [None], on an object with other data, and on a
    mesh datablock, which has no [data]. *)
Definition obj_data_rpr_uv_sets_names (obj : option Object) : Res (list string) :=
  match obj with
  | Some (BlenderObject (Some names)) => Ok names
  | Some (BlenderObject None) => Raise AttributeError
  | Some (MeshData _) => Raise AttributeError
  | None => Raise AttributeError
  end.

(** The key [sync] computes before it touches the registry (and, with the
    default socket, the one [sync_update] computes).  [and] does not evaluate
    [has_uv_map_node] when the [isinstance] test fails. *)
Definition mat_key_of (material : Material) (input_socket_key : string)
    (obj : option Object) : Res PyVal :=
  if isinstance_Mesh obj then
    match has_uv_map_node material with
    | Raise e => Raise e
    | Ok true =>
        match obj_data_rpr_uv_sets_names obj with
        | Raise e => Raise e
        | Ok names =>
            Ok (key (PTuple [PStr (name material); str_tuple names])
                  input_socket_key)
        end
    | Ok false => Ok (key (PStr (name material)) input_socket_key)
    end
  else Ok (key (PStr (name material)) input_socket_key).

(** ** The renderer context and the operations on it *)

Section Exporter.

(** Compiled material handles are renderer objects.  Python treats every
    such object as true, so [None] is the only false value a lookup or a
    compilation can produce; it is modelled by [option]'s [None]. *)
Variable Handle : Type.

(** Whatever else the renderer context holds (the primitives node
    compilers allocate). *)
Variable Renderer : Type.

(** Modelled from the spec: the graph compiler
    [ShaderNodeOutputMaterial(rpr_context, material, output_node, None,
    obj=obj, material_key=mat_key).final_export(input_socket_key)].
    The class lives in [rprblender.nodes.blender_nodes] and is a parameter
    here.  It may allocate in the renderer, returns a handle or [None], and
    does not write the [materials] registry itself (only the result of the
    whole compilation is cached, by [sync]). *)
Variable final_export :
  Material → Node → option Object → PyVal → string →
  Renderer → option Handle * Renderer.

(** [exports] is the trace of [final_export] invocations (material key and
    socket), kept to state how often compilation runs. *)
Record RPRContext : Type := {
  materials : gmap PyVal Handle;
  renderer : Renderer;
  exports : list (PyVal * string);
}.

Definition Exec (A : Type) : Type := RPRContext → Res A * RPRContext.

Definition ret {A : Type} (a : A) : Exec A := λ ctx, (Ok a, ctx).

Definition bind {A B : Type} (c : Exec A) (k : A → Exec B) : Exec B :=
  λ ctx,
    match c ctx with
    | (Ok a, ctx') => k a ctx'
    | (Raise e, ctx') => (Raise e, ctx')
    end.

Definition lift {A : Type} (r : Res A) : Exec A := λ ctx, (r, ctx).

Notation "x <- c ;; k" := (bind c (λ x, k))
  (at level 100, c at next level, right associativity).
Notation "c ;;; k" := (bind c (λ _, k))
  (at level 100, right associativity).

(** Modelled from the spec: [RPRContext.materials] and its methods are
    defined in [rprblender.engine.context]; the registry is a mapping from
    cache key to handle with membership test, get, set and remove.  This is
    [rpr_context.materials.get(k, None)]. *)
Definition materials_get (k : PyVal) : Exec (option Handle) :=
  λ ctx, (Ok (materials ctx !! k), ctx).

(** Modelled from the spec: the membership test [k in rpr_context.materials]. *)
Definition materials_contains (k : PyVal) : Exec bool :=
  λ ctx, (Ok (bool_decide (is_Some (materials ctx !! k))), ctx).

(** Modelled from the spec: [RPRContext.set_material_node_as_material], the
    registry's set operation; insertion overwrites. *)
Definition set_material_node_as_material (k : PyVal) (h : Handle) : Exec unit :=
  λ ctx,
    (Ok tt, {| materials := <[k := h]> (materials ctx);
               renderer := renderer ctx;
               exports := exports ctx |}).

(** Modelled from the spec: [RPRContext.remove_material], the registry's
    remove operation. *)
Definition remove_material (k : PyVal) : Exec unit :=
  λ ctx,
    (Ok tt, {| materials := delete k (materials ctx);
               renderer := renderer ctx;
               exports := exports ctx |}).

(** The call of the compiler inside [sync], recorded in the trace. *)
Definition run_final_export (material : Material) (output_node : Node)
    (obj : option Object) (mat_key : PyVal) (input_socket_key : string)
    : Exec (option Handle) :=
  λ ctx,
    let (r, rs) :=
      final_export material output_node obj mat_key input_socket_key (renderer ctx) in
    (Ok r, {| materials := materials ctx;
              renderer := rs;
              exports := exports ctx ++ [(mat_key, input_socket_key)] |}).

(** ** [sync] *)
Definition sync (material : Material) (input_socket_key : string)
    (obj : option Object) : Exec (option Handle) :=
  mat_key <- lift (mat_key_of material input_socket_key obj) ;;
  rpr_material <- materials_get mat_key ;;
  match rpr_material with
  | Some h => ret (Some h)
  | None =>
      match get_material_output_node material with
      | None => ret None
      | Some output_node =>
          rpr_material <-
            run_final_export material output_node obj mat_key input_socket_key ;;
          match rpr_material with
          | Some h => (set_material_node_as_material mat_key h ;;; ret (Some h))
          | None => ret None
          end
      end
  end.

(** ** [sync_update]

    The first [sync] is called with [obj=obj], the second one without
    [obj], so with its default [None]. *)
Definition sync_update (material : Material) (obj : option Object) : Exec bool :=
  mat_key <- lift (mat_key_of material "Surface" obj) ;;
  present <- materials_contains mat_key ;;
  (if present then remove_material mat_key else ret tt) ;;;
  sync material "Surface" obj ;;;
  (let displacement_key := key mat_key "Displacement" in
   present <- materials_contains displacement_key ;;
   (if present then remove_material displacement_key else ret tt) ;;;
   sync material "Displacement" None ;;;
   ret true).

(** The context with the entry of [k], if any, removed: what the guarded
    [remove_material] of [sync_update] leaves. *)
Definition without (k : PyVal) (ctx : RPRContext) : RPRContext :=
  {| materials := delete k (materials ctx);
     renderer := renderer ctx;
     exports := exports ctx |}.

(** The context after a compilation that gave [r]: the compiler's renderer
    state, one more entry in the trace, and the handle registered when
    there is one. *)
Definition after_export (k : PyVal) (s : string) (r : option Handle)
    (rs : Renderer) (ctx : RPRContext) : RPRContext :=
  {| materials := match r with
                  | Some h => <[k := h]> (materials ctx)
                  | None => materials ctx
                  end;
     renderer := rs;
     exports := exports ctx ++ [(k, s)] |}.

(** The four ways a run of [sync] can go: the key cannot be derived, the key
    is registered, there is no output node, the graph is compiled. *)
Inductive sync_case (material : Material) (s : string) (obj : option Object)
    (ctx : RPRContext) : Res (option Handle) * RPRContext → Prop :=
  | sync_case_raise e :
      mat_key_of material s obj = Raise e →
      sync_case material s obj ctx (Raise e, ctx)
  | sync_case_hit k h :
      mat_key_of material s obj = Ok k →
      materials ctx !! k = Some h →
      sync_case material s obj ctx (Ok (Some h), ctx)
  | sync_case_no_output k :
      mat_key_of material s obj = Ok k →
      materials ctx !! k = None →
      get_material_output_node material = None →
      sync_case material s obj ctx (Ok None, ctx)
  | sync_case_export k out r rs :
      mat_key_of material s obj = Ok k →
      materials ctx !! k = None →
      get_material_output_node material = Some out →
      final_export material out obj k s (renderer ctx) = (r, rs) →
      sync_case material s obj ctx (Ok r, after_export k s r rs ctx).

End Exporter.

Arguments materials {Handle Renderer} _.
Arguments renderer {Handle Renderer} _.
Arguments exports {Handle Renderer} _.
Arguments Build_RPRContext {Handle Renderer} _ _ _.
Arguments sync {Handle Renderer} final_export material input_socket_key obj _.
Arguments sync_update {Handle Renderer} final_export material obj _.
Arguments without {Handle Renderer} k ctx.
Arguments after_export {Handle Renderer} k s r rs ctx.
Arguments sync_case {Handle Renderer} final_export material s obj ctx _.

(** ** Sample scenes *)

Module Samples.

Definition linked_to (producer : string) : NodeSocket :=
  {| is_linked := true; links := [{| is_valid := true; from_node := producer |}] |}.

Definition unlinked : NodeSocket := {| is_linked := false; links := [] |}.

Definition broken_link (producer : string) : NodeSocket :=
  {| is_linked := true; links := [{| is_valid := false; from_node := producer |}] |}.

Definition bsdf_node : Node :=
  {| node_name := "Glass BSDF"; bl_idname := "ShaderNodeBsdfGlass";
     is_active_output := false; inputs := [] |}.

Definition uv_node : Node :=
  {| node_name := "UV Map"; bl_idname := "ShaderNodeUVMap";
     is_active_output := false; inputs := [] |}.

Definition output_node (surface displacement : NodeSocket) (active : bool) : Node :=
  {| node_name := "Material Output"; bl_idname := "ShaderNodeOutputMaterial";
     is_active_output := active;
     inputs := [("Surface", surface); ("Volume", unlinked);
                ("Displacement", displacement)] |}.

(** "Glass": Surface linked to a Glass BSDF, Displacement unlinked. *)
Definition glass_out : Node := output_node (linked_to "Glass BSDF") unlinked true.
Definition glass : Material :=
  {| name := "Glass"; node_tree := Some {| nodes := [bsdf_node; glass_out] |} |}.

(** "Glass" after its output node has been made inactive. *)
Definition glass_inactive : Material :=
  {| name := "Glass";
     node_tree := Some {| nodes :=
       [bsdf_node; output_node (linked_to "Glass BSDF") unlinked false] |} |}.

(** A material whose Surface link is flagged invalid. *)
Definition broken_out : Node := output_node (broken_link "Glass BSDF") unlinked true.
Definition broken : Material :=
  {| name := "Broken"; node_tree := Some {| nodes := [bsdf_node; broken_out] |} |}.

(** A material without a node tree. *)
Definition plain : Material := {| name := "Plain"; node_tree := None |}.

(** "Wood" contains a UV Map node; both channels are linked. *)
Definition wood_out : Node :=
  output_node (linked_to "Glass BSDF") (linked_to "UV Map") true.
Definition wood : Material :=
  {| name := "Wood";
     node_tree := Some {| nodes := [uv_node; bsdf_node; wood_out] |} |}.

(** Two mesh datablocks, two objects whose data are such meshes, and an
    object whose data is no mesh. *)
Definition mesh_A : Object := MeshData ["UVMap"].
Definition mesh_B : Object := MeshData ["UVMap"; "UVMap2"].
Definition object_A : Object := BlenderObject (Some ["UVMap"]).
Definition object_B : Object := BlenderObject (Some ["UVMap"; "UVMap2"]).
Definition lamp : Object := BlenderObject None.

(** A compiler for the samples: handles are numbers, the renderer state is
    the count of handles allocated so far, and a channel compiles exactly
    when [get_material_input_node] finds a producer for it. *)
Definition counting_export (material : Material) (output_node : Node)
    (obj : option Object) (mat_key : PyVal) (input_socket_key : string)
    (allocated : nat) : option nat * nat :=
  match get_material_input_node material input_socket_key with
  | Ok (Some _) => (Some allocated, S allocated)
  | _ => (None, allocated)
  end.

Definition empty_context : RPRContext nat nat :=
  {| materials := ∅; renderer := 0; exports := [] |}.

(** The context after "Glass" has been synced for Surface without object. *)
Definition glass_synced : RPRContext nat nat :=
  (sync counting_export glass "Surface" None empty_context).2.

(** The context after "Wood" has been synced for Surface on object A, and
    then for Displacement without object. *)
Definition wood_synced : RPRContext nat nat :=
  (sync counting_export wood "Surface" (Some object_A) empty_context).2.

Definition wood_synced_both : RPRContext nat nat :=
  (sync counting_export wood "Displacement" None wood_synced).2.

End Samples.

(** * View layer properties: render passes (AOVs)

    Shallow embedding of the AOV part of [rprblender/properties/view_layer.py],
    class [RPR_ViewLayerProperites]: the pass tables, [export_aovs] and
    [enable_aov_by_name].  The float-valued contour and denoiser properties
    are not modelled. *)

Module ViewLayer.

(** The [pyrpr.AOV_*] constants the tables name. *)
Inductive AOV : Type :=
  | AOV_COLOR | AOV_DEPTH | AOV_UV | AOV_OBJECT_ID | AOV_MATERIAL_ID
  | AOV_WORLD_COORDINATE | AOV_GEOMETRIC_NORMAL | AOV_SHADING_NORMAL
  | AOV_CAMERA_NORMAL | AOV_OBJECT_GROUP_ID | AOV_SHADOW_CATCHER
  | AOV_REFLECTION_CATCHER | AOV_BACKGROUND | AOV_EMISSION | AOV_VELOCITY
  | AOV_DIRECT_ILLUMINATION | AOV_INDIRECT_ILLUMINATION | AOV_AO
  | AOV_DIRECT_DIFFUSE | AOV_DIRECT_REFLECT | AOV_INDIRECT_DIFFUSE
  | AOV_INDIRECT_REFLECT | AOV_REFRACT | AOV_VOLUME | AOV_OPACITY
  | AOV_LIGHT_GROUP0 | AOV_LIGHT_GROUP1 | AOV_LIGHT_GROUP2 | AOV_LIGHT_GROUP3
  | AOV_VARIANCE | AOV_DIFFUSE_ALBEDO
  | AOV_CRYPTOMATTE_MAT0 | AOV_CRYPTOMATTE_MAT1 | AOV_CRYPTOMATTE_MAT2
  | AOV_CRYPTOMATTE_OBJ0 | AOV_CRYPTOMATTE_OBJ1 | AOV_CRYPTOMATTE_OBJ2.

(** One entry of a pass table: [{'rpr': ..., 'name': ..., 'channel': ...}]. *)
Record AovInfo : Type := {
  rpr : AOV;
  name : string;
  channel : string;
}.

Definition aovs_info : list AovInfo := [
  {| rpr := AOV_COLOR; name := "Combined"; channel := "RGBA" |};
  {| rpr := AOV_DEPTH; name := "Depth"; channel := "Z" |};
  {| rpr := AOV_COLOR; name := "Color"; channel := "RGBA" |};
  {| rpr := AOV_UV; name := "UV"; channel := "UVA" |};
  {| rpr := AOV_OBJECT_ID; name := "Object Index"; channel := "X" |};
  {| rpr := AOV_MATERIAL_ID; name := "Material Index"; channel := "X" |};
  {| rpr := AOV_WORLD_COORDINATE; name := "World Coordinate"; channel := "XYZ" |};
  {| rpr := AOV_GEOMETRIC_NORMAL; name := "Geometric Normal"; channel := "XYZ" |};
  {| rpr := AOV_SHADING_NORMAL; name := "Shading Normal"; channel := "XYZ" |};
  {| rpr := AOV_CAMERA_NORMAL; name := "Camera Normal"; channel := "XYZ" |};
  {| rpr := AOV_OBJECT_GROUP_ID; name := "Group Index"; channel := "X" |};
  {| rpr := AOV_SHADOW_CATCHER; name := "Shadow Catcher"; channel := "A" |};
  {| rpr := AOV_REFLECTION_CATCHER; name := "Reflection Catcher"; channel := "A" |};
  {| rpr := AOV_BACKGROUND; name := "Background"; channel := "RGB" |};
  {| rpr := AOV_EMISSION; name := "Emission"; channel := "RGB" |};
  {| rpr := AOV_VELOCITY; name := "Velocity"; channel := "XYZ" |};
  {| rpr := AOV_DIRECT_ILLUMINATION; name := "Direct Illumination"; channel := "RGB" |};
  {| rpr := AOV_INDIRECT_ILLUMINATION; name := "Indirect Illumination"; channel := "RGB" |};
  {| rpr := AOV_AO; name := "Ambient Occlusion"; channel := "RGB" |};
  {| rpr := AOV_DIRECT_DIFFUSE; name := "Direct Diffuse"; channel := "RGB" |};
  {| rpr := AOV_DIRECT_REFLECT; name := "Direct Reflect"; channel := "RGB" |};
  {| rpr := AOV_INDIRECT_DIFFUSE; name := "Indirect Diffuse"; channel := "RGB" |};
  {| rpr := AOV_INDIRECT_REFLECT; name := "Indirect Reflect"; channel := "RGB" |};
  {| rpr := AOV_REFRACT; name := "Refraction"; channel := "RGB" |};
  {| rpr := AOV_VOLUME; name := "Volume"; channel := "RGB" |};
  {| rpr := AOV_OPACITY; name := "Opacity"; channel := "A" |};
  {| rpr := AOV_LIGHT_GROUP0; name := "Light Group 1"; channel := "RGB" |};
  {| rpr := AOV_LIGHT_GROUP1; name := "Light Group 2"; channel := "RGB" |};
  {| rpr := AOV_LIGHT_GROUP2; name := "Light Group 3"; channel := "RGB" |};
  {| rpr := AOV_LIGHT_GROUP3; name := "Light Group 4"; channel := "RGB" |};
  {| rpr := AOV_VARIANCE; name := "Color Variance"; channel := "RGB" |};
  {| rpr := AOV_DIFFUSE_ALBEDO; name := "Diffuse Albedo"; channel := "RGB" |}
].

Definition cryptomatte_aovs_info : list AovInfo := [
  {| rpr := AOV_CRYPTOMATTE_MAT0; name := "CryptoMaterial00"; channel := "RGBA" |};
  {| rpr := AOV_CRYPTOMATTE_MAT1; name := "CryptoMaterial01"; channel := "RGBA" |};
  {| rpr := AOV_CRYPTOMATTE_MAT2; name := "CryptoMaterial02"; channel := "RGBA" |};
  {| rpr := AOV_CRYPTOMATTE_OBJ0; name := "CryptoObject00"; channel := "RGBA" |};
  {| rpr := AOV_CRYPTOMATTE_OBJ1; name := "CryptoObject01"; channel := "RGBA" |};
  {| rpr := AOV_CRYPTOMATTE_OBJ2; name := "CryptoObject02"; channel := "RGBA" |}
].

Definition contour_info : AovInfo :=
  {| rpr := AOV_COLOR; name := "Outline"; channel := "RGBA" |}.

(** The default of [enable_aovs]:
    [tuple(aov['name'] in ["Combined", "Depth"] for aov in aovs_info)]. *)
Definition default_enable_aovs : list bool :=
  map (λ aov, existsb (String.eqb (name aov)) ["Combined"; "Depth"]) aovs_info.

(** The properties of the class that [export_aovs] and [enable_aov_by_name]
    read or write.  [enable_aovs] is a Boolean vector property. *)
Record ViewLayerProperties : Type := {
  enable_aovs : list bool;
  crytomatte_aov_object : bool;
  crytomatte_aov_material : bool;
  use_contour_render : bool;
}.

(** One call [rpr_engine.add_pass(name, channels, chan_id, layer=...)]. *)
Record RenderPass : Type := {
  pass_name : string;
  pass_channels : nat;
  pass_chan_id : string;
  pass_layer : string;
}.

(** What [export_aovs] does to its collaborators, as the sequences of calls
    it makes: [rpr_context.enable_aov(aov)] and [rpr_engine.add_pass(...)]. *)
Record Exported : Type := {
  enabled : list AOV;
  passes : list RenderPass;
}.

Definition enable_aov (aov : AOV) (st : Exported) : Exported :=
  {| enabled := enabled st ++ [aov]; passes := passes st |}.

(** The arguments [export_aovs] gives to [add_pass] for a table entry:
    [(aov['name'], len(aov['channel']), aov['channel'], layer=view_layer.name)]. *)
Definition pass_of (layer : string) (aov : AovInfo) : RenderPass :=
  {| pass_name := name aov;
     pass_channels := String.length (channel aov);
     pass_chan_id := channel aov;
     pass_layer := layer |}.

Definition add_pass (aov : AovInfo) (layer : string) (st : Exported) : Exported :=
  {| enabled := enabled st;
     passes := passes st ++ [pass_of layer aov] |}.

Section ExportAovs.

(** The values of the [pyrpr.AOV_*] constants; [pyrpr] is a binding of the
    renderer's library and is a parameter here. *)
Variable aov_code : AOV → Z.

(** [view_layer.name], and the pass flags of [bpy.context.view_layer]. *)
Variable layer : string.
Variable use_pass_combined use_pass_z : bool.

Variable enable_adaptive cryptomatte_allowed : bool.

(** The filters of the loop body: [true] when the entry is skipped by one of
    the three [continue] statements. *)
Definition skipped (aov : AovInfo) : bool :=
  (Z.eqb (aov_code (rpr aov)) (aov_code AOV_VARIANCE) && negb enable_adaptive)
  || (String.eqb (name aov) "Combined" && use_pass_combined)
  || (String.eqb (name aov) "Depth" && use_pass_z).

(** [for i, enable_aov in enumerate(self.enable_aovs)], from index [i] on.
    [self.aovs_info[i]] raises [IndexError] past the end of the table. *)
Fixpoint export_enabled (i : nat) (flags : list bool) (st : Exported)
    : Res unit * Exported :=
  match flags with
  | [] => (Ok tt, st)
  | flag :: rest =>
      if negb flag then export_enabled (S i) rest st
      else
        match aovs_info !! i with
        | None => (Raise IndexError, st)
        | Some aov =>
            if skipped aov then export_enabled (S i) rest st
            else export_enabled (S i) rest (enable_aov (rpr aov) (add_pass aov layer st))
        end
  end.

(** [for i in range(...)] over [cryptomatte_aovs_info]. *)
Fixpoint export_cryptomatte (indices : list nat) (st : Exported)
    : Res unit * Exported :=
  match indices with
  | [] => (Ok tt, st)
  | i :: rest =>
      match cryptomatte_aovs_info !! i with
      | None => (Raise IndexError, st)
      | Some aov =>
          export_cryptomatte rest (enable_aov (rpr aov) (add_pass aov layer st))
      end
  end.

Definition export_aovs (self : ViewLayerProperties) (st : Exported)
    : Res unit * Exported :=
  let st := enable_aov AOV_DEPTH (enable_aov AOV_COLOR st) in
  match export_enabled 0 (enable_aovs self) st with
  | (Raise e, st) => (Raise e, st)
  | (Ok _, st) =>
      let after_material :=
        if cryptomatte_allowed && crytomatte_aov_material self
        then export_cryptomatte [0; 1; 2] st
        else (Ok tt, st) in
      match after_material with
      | (Raise e, st) => (Raise e, st)
      | (Ok _, st) =>
          let after_object :=
            if cryptomatte_allowed && crytomatte_aov_object self
            then export_cryptomatte [3; 4; 5] st
            else (Ok tt, st) in
          match after_object with
          | (Raise e, st) => (Raise e, st)
          | (Ok _, st) =>
              if use_contour_render self
              then (Ok tt, add_pass contour_info layer st)
              else (Ok tt, st)
          end
      end
  end.

End ExportAovs.

(** The table entries [export_aovs] handles after the loop: the cryptomatte
    entries 0-2 (material) and 3-5 (object) when allowed and switched on,
    and the contour entry, for which a pass is added but no AOV enabled. *)
Definition cryptomatte_entries (cryptomatte_allowed : bool)
    (self : ViewLayerProperties) : list AovInfo :=
  (if cryptomatte_allowed && crytomatte_aov_material self
   then take 3 cryptomatte_aovs_info else [])
  ++ (if cryptomatte_allowed && crytomatte_aov_object self
      then drop 3 cryptomatte_aovs_info else []).

Definition contour_entries (self : ViewLayerProperties) : list AovInfo :=
  if use_contour_render self then [contour_info] else [].

(** Every entry [export_aovs] can add a pass for. *)
Definition all_entries : list AovInfo :=
  aovs_info ++ cryptomatte_aovs_info ++ [contour_info].

(** The calls made between two states of the collaborators. *)
Definition new_passes (before after : Exported) : list RenderPass :=
  drop (length (passes before)) (passes after).

Definition new_enabled (before after : Exported) : list AOV :=
  drop (length (enabled before)) (enabled after).

(** [enable_aov_by_name]: the loop over [enumerate(self.aovs_info)] from
    index [i] on.  The assignment [self.enable_aovs[i] = True] raises
    [IndexError] outside the vector. *)
Fixpoint enable_in (i : nat) (infos : list AovInfo) (wanted : string)
    (flags : list bool) : Res (list bool) :=
  match infos with
  | [] => Ok flags
  | aov_info :: rest =>
      if String.eqb (name aov_info) wanted then
        if Nat.ltb i (length flags) then Ok (<[i := true]> flags)
        else Raise IndexError
      else enable_in (S i) rest wanted flags
  end.

Definition enable_aov_by_name (self : ViewLayerProperties) (wanted : string)
    : Res ViewLayerProperties :=
  match enable_in 0 aovs_info wanted (enable_aovs self) with
  | Raise e => Raise e
  | Ok flags =>
      Ok {| enable_aovs := flags;
            crytomatte_aov_object := crytomatte_aov_object self;
            crytomatte_aov_material := crytomatte_aov_material self;
            use_contour_render := use_contour_render self |}
  end.

(** Sample inputs: the property defaults, and stand-in values for the
    [pyrpr] constants. *)
Definition default_properties : ViewLayerProperties :=
  {| enable_aovs := default_enable_aovs;
     crytomatte_aov_object := false;
     crytomatte_aov_material := false;
     use_contour_render := false |}.

Definition sample_code (aov : AOV) : Z :=
  match aov with
  | AOV_COLOR => 0
  | AOV_DEPTH => 1
  | AOV_VARIANCE => 2
  | _ => 3
  end.

Definition nothing_exported : Exported := {| enabled := []; passes := [] |}.

End ViewLayer.

(** * Properties *)

(** ** The key function *)

Lemma key_Surface (M : PyVal) : key M "Surface" = M.
Proof. reflexivity. Qed.

Lemma key_other (M : PyVal) (s : string) :
  s ≠ "Surface" → key M s = PTuple [M; PStr s].
Proof.
  intros Hs. unfold key.
  destruct (String.eqb_spec s "Surface") as [E | _]; [by destruct Hs | done].
Qed.

(** C3: the Surface key of an identity is the identity itself, any other
    socket name gives the two-element tuple of identity and socket name, in
    particular for "Displacement". *)
Theorem key_degeneracy (M : PyVal) :
  key M "Surface" = M
  ∧ (∀ s : string, s ≠ "Surface" → key M s = PTuple [M; PStr s])
  ∧ key M "Displacement" = PTuple [M; PStr "Displacement"].
Proof.
  split; [apply key_Surface |].
  split; [intros s; apply key_other |].
  reflexivity.
Qed.

Lemma key_degeneracy_witness :
  key (uv_identity "Wood" ["UVMap"]) "Volume"
  = PTuple [uv_identity "Wood" ["UVMap"]; PStr "Volume"].
Proof.
  apply (proj1 (proj2 (key_degeneracy (uv_identity "Wood" ["UVMap"])))).
  discriminate.
Defined.

(** An identity never is a tuple ending in a string. *)
Lemma identity_not_keyed (M M' : PyVal) (s : string) :
  is_identity M → M ≠ PTuple [M'; PStr s].
Proof. intros [n | n uvs]; unfold name_identity, uv_identity, str_tuple; congruence. Qed.

(** C9: on identities the key function is injective in both arguments, and a
    Surface key never equals the key of another socket. *)
Theorem key_injective (M1 M2 : PyVal) (s1 s2 : string) :
  is_identity M1 → is_identity M2 →
  (key M1 s1 = key M2 s2 → M1 = M2 ∧ s1 = s2)
  ∧ (s2 ≠ "Surface" → key M1 "Surface" ≠ key M2 s2).
Proof.
  intros H1 H2. split.
  - unfold key.
    destruct (String.eqb_spec s1 "Surface") as [E1 | N1],
             (String.eqb_spec s2 "Surface") as [E2 | N2]; intros E.
    + subst. done.
    + by apply identity_not_keyed in E.
    + symmetry in E. by apply identity_not_keyed in E.
    + by inversion E.
  - intros N2. rewrite key_Surface, (key_other _ _ N2).
    by apply identity_not_keyed.
Qed.

Lemma key_injective_witness :
  (name_identity "Glass" = name_identity "Glass" ∧ "Displacement" = "Displacement")
  ∧ key (uv_identity "Wood" ["UVMap"]) "Surface"
    ≠ key (name_identity "Glass") "Displacement".
Proof.
  split.
  - apply (key_injective (name_identity "Glass") (name_identity "Glass")
             "Displacement" "Displacement");
      [constructor | constructor | reflexivity].
  - apply (key_injective (uv_identity "Wood" ["UVMap"]) (name_identity "Glass")
             "Surface" "Displacement");
      [constructor | constructor | discriminate].
Defined.

(** ** The socket resolver *)

Lemma get_material_output_node_no_tree (material : Material) :
  node_tree material = None → get_material_output_node material = None.
Proof. unfold get_material_output_node. by intros ->. Qed.

(** A found output node is an active material-output node of the tree. *)
Lemma get_material_output_node_Some (material : Material) (out : Node) :
  get_material_output_node material = Some out →
  ∃ tree, node_tree material = Some tree
          ∧ In out (nodes tree)
          ∧ bl_idname out = "ShaderNodeOutputMaterial"
          ∧ is_active_output out = true.
Proof.
  unfold get_material_output_node.
  destruct (node_tree material) as [tree |]; [| done].
  intros Hfind. exists tree. split; [done |].
  apply List.find_some in Hfind as [Hin Hout].
  apply andb_prop in Hout as [Hid Hact].
  apply String.eqb_eq in Hid. done.
Qed.

(** No node flagged as the active output: nothing is found. *)
Lemma get_material_output_node_none_active (material : Material) (tree : NodeTree) :
  node_tree material = Some tree →
  (∀ node, In node (nodes tree) → is_active_output node = false) →
  get_material_output_node material = None.
Proof.
  intros Htree Hnone. unfold get_material_output_node. rewrite Htree.
  destruct (List.find is_material_output (nodes tree)) as [out |] eqn:Hfind; [| done].
  apply List.find_some in Hfind as [Hin Hout].
  apply andb_prop in Hout as [_ Hact].
  rewrite (Hnone out Hin) in Hact. discriminate.
Qed.

(** C5, as the code has it: the lookup gives [None] without raising for a
    material without node tree, without active output node, with the socket
    unlinked and with the socket's first link invalid (the same result as for
    the unlinked socket); a socket name the output node does not have makes
    the subscription raise [KeyError]. *)
Theorem get_material_input_node_soft (material : Material) (input_socket_key : string) :
  (node_tree material = None →
     get_material_input_node material input_socket_key = Ok None)
  ∧ (get_material_output_node material = None →
     get_material_input_node material input_socket_key = Ok None)
  ∧ (∀ out socket_in,
       get_material_output_node material = Some out →
       getitem (inputs out) input_socket_key = Ok socket_in →
       is_linked socket_in = false →
       get_material_input_node material input_socket_key = Ok None)
  ∧ (∀ out socket_in link0 rest,
       get_material_output_node material = Some out →
       getitem (inputs out) input_socket_key = Ok socket_in →
       is_linked socket_in = true →
       links socket_in = link0 :: rest →
       is_valid link0 = false →
       get_material_input_node material input_socket_key = Ok None)
  ∧ (∀ out,
       get_material_output_node material = Some out →
       getitem (inputs out) input_socket_key = Raise KeyError →
       get_material_input_node material input_socket_key = Raise KeyError).
Proof.
  unfold get_material_input_node.
  split; [| split; [| split; [| split]]].
  - intros Htree. by rewrite (get_material_output_node_no_tree _ Htree).
  - by intros ->.
  - intros out socket_in -> -> ->. done.
  - intros out socket_in link0 rest -> -> -> -> ->. done.
  - intros out -> ->. done.
Qed.

Lemma get_material_input_node_soft_witness :
  get_material_input_node Samples.plain "Surface" = Ok None
  ∧ get_material_input_node Samples.glass_inactive "Surface" = Ok None
  ∧ get_material_input_node Samples.glass "Displacement" = Ok None
  ∧ get_material_input_node Samples.broken "Surface" = Ok None
  ∧ get_material_input_node Samples.glass "Emission" = Raise KeyError.
Proof.
  split; [| split; [| split; [| split]]].
  - apply (proj1 (get_material_input_node_soft Samples.plain "Surface")).
    reflexivity.
  - apply (proj1 (proj2 (get_material_input_node_soft Samples.glass_inactive "Surface"))).
    reflexivity.
  - apply (proj1 (proj2 (proj2
             (get_material_input_node_soft Samples.glass "Displacement")))
             Samples.glass_out Samples.unlinked); reflexivity.
  - apply (proj1 (proj2 (proj2 (proj2
             (get_material_input_node_soft Samples.broken "Surface"))))
             Samples.broken_out (Samples.broken_link "Glass BSDF")
             {| is_valid := false; from_node := "Glass BSDF" |} []); reflexivity.
  - apply (proj2 (proj2 (proj2 (proj2
             (get_material_input_node_soft Samples.glass "Emission"))))
             Samples.glass_out); reflexivity.
Defined.

(** The output node of "Glass" has no input named "Emission": the lookup
    raises instead of returning [None]. *)
Lemma get_material_input_node_missing_socket :
  get_material_output_node Samples.glass = Some Samples.glass_out
  ∧ (∀ socket_in, In ("Emission", socket_in) (inputs Samples.glass_out) → False)
  ∧ get_material_input_node Samples.glass "Emission" = Raise KeyError
  ∧ get_material_input_node Samples.glass "Emission" ≠ Ok None.
Proof.
  split; [reflexivity |].
  split.
  - intros socket_in Hin. simpl in Hin.
    repeat (destruct Hin as [Hin | Hin]; [discriminate Hin |]). done.
  - split; [reflexivity | discriminate].
Qed.

(** ** [sync] *)

Section SyncProperties.

Context {Handle Renderer : Type}.
Variable final_export :
  Material → Node → option Object → PyVal → string →
  Renderer → option Handle * Renderer.

Abbreviation Ctx := (RPRContext Handle Renderer).

Lemma sync_raise (material : Material) (s : string) (obj : option Object)
    (e : Exn) (ctx : Ctx) :
  mat_key_of material s obj = Raise e →
  sync final_export material s obj ctx = (Raise e, ctx).
Proof. intros Hk. unfold sync, bind, lift. by rewrite Hk. Qed.

Lemma sync_hit (material : Material) (s : string) (obj : option Object)
    (k : PyVal) (h : Handle) (ctx : Ctx) :
  mat_key_of material s obj = Ok k →
  materials ctx !! k = Some h →
  sync final_export material s obj ctx = (Ok (Some h), ctx).
Proof.
  intros Hk Hget. unfold sync, bind, lift, materials_get, ret.
  by rewrite Hk, Hget.
Qed.

Lemma sync_miss_no_output (material : Material) (s : string)
    (obj : option Object) (k : PyVal) (ctx : Ctx) :
  mat_key_of material s obj = Ok k →
  materials ctx !! k = None →
  get_material_output_node material = None →
  sync final_export material s obj ctx = (Ok None, ctx).
Proof.
  intros Hk Hget Hout. unfold sync, bind, lift, materials_get, ret.
  by rewrite Hk, Hget, Hout.
Qed.

Lemma sync_miss_export (material : Material) (s : string)
    (obj : option Object) (k : PyVal) (out : Node) (ctx : Ctx) :
  mat_key_of material s obj = Ok k →
  materials ctx !! k = None →
  get_material_output_node material = Some out →
  sync final_export material s obj ctx
  = (Ok (final_export material out obj k s (renderer ctx)).1,
     after_export k s (final_export material out obj k s (renderer ctx)).1
       (final_export material out obj k s (renderer ctx)).2 ctx).
Proof.
  intros Hk Hget Hout.
  unfold sync, bind, lift, materials_get, ret, run_final_export,
    set_material_node_as_material, after_export.
  rewrite Hk, Hget, Hout.
  destruct (final_export material out obj k s (renderer ctx)) as [[h |] rs];
    reflexivity.
Qed.

Lemma sync_cases (material : Material) (s : string) (obj : option Object)
    (ctx : Ctx) :
  sync_case final_export material s obj ctx (sync final_export material s obj ctx).
Proof.
  destruct (mat_key_of material s obj) as [k | e] eqn:Hk.
  - destruct (materials ctx !! k) as [h |] eqn:Hget.
    + rewrite (sync_hit _ _ _ _ _ _ Hk Hget). by eapply sync_case_hit.
    + destruct (get_material_output_node material) as [out |] eqn:Hout.
      * rewrite (sync_miss_export _ _ _ _ _ _ Hk Hget Hout).
        eapply sync_case_export; eauto. apply surjective_pairing.
      * rewrite (sync_miss_no_output _ _ _ _ _ Hk Hget Hout).
        by eapply sync_case_no_output.
  - rewrite (sync_raise _ _ _ _ _ Hk). by apply sync_case_raise.
Qed.

(** Inversion of a run of [sync] into its case. *)
Ltac sync_inv H :=
  match type of H with
  | sync ?fe ?m ?s ?o ?c = _ =>
      let C := fresh "C" in
      pose proof (sync_cases m s o c) as C;
      rewrite H in C; inversion C; subst; clear C
  end.

(** A returned handle is the one registered under the call's key. *)
Lemma sync_Some_registered (material : Material) (s : string)
    (obj : option Object) (k : PyVal) (h : Handle) (ctx ctx1 : Ctx) :
  mat_key_of material s obj = Ok k →
  sync final_export material s obj ctx = (Ok (Some h), ctx1) →
  materials ctx1 !! k = Some h.
Proof.
  intros Hk Hrun. sync_inv Hrun.
  - congruence.
  - simpl. rewrite Hk in *. simplify_eq. apply lookup_insert_eq.
Qed.

(** What one call does to the registry: nothing, or one insertion at the
    call's own key, which was free. *)
Lemma sync_registry (material : Material) (s : string) (obj : option Object)
    (ctx : Ctx) :
  materials (sync final_export material s obj ctx).2 = materials ctx
  ∨ ∃ k h, mat_key_of material s obj = Ok k
           ∧ materials ctx !! k = None
           ∧ (sync final_export material s obj ctx).1 = Ok (Some h)
           ∧ materials (sync final_export material s obj ctx).2
             = <[k := h]> (materials ctx).
Proof.
  destruct (sync_cases material s obj ctx) as
    [e He | k h Hk Hget | k Hk Hget Hout | k out r rs Hk Hget Hout Hfe];
    simpl; auto.
  destruct r as [h |]; simpl; [| by left].
  right. by exists k, h.
Qed.

(** C1: with the key registered, [sync] returns the stored handle and leaves
    the whole context as it was (nothing is compiled); with the key free, it
    returns what compiling gives, the registry binds the key to that result
    afterwards when it is a handle and is unchanged when it is [None]; the
    compiler is run once when there is an output node and not at all when
    there is none. *)
Theorem sync_cache_contract (material : Material) (s : string)
    (obj : option Object) (k : PyVal) (ctx : Ctx) :
  mat_key_of material s obj = Ok k →
  (∀ h, materials ctx !! k = Some h →
        sync final_export material s obj ctx = (Ok (Some h), ctx))
  ∧ (materials ctx !! k = None →
     ∃ r ctx1,
       sync final_export material s obj ctx = (Ok r, ctx1)
       ∧ materials ctx1 !! k = r
       ∧ (r = None → materials ctx1 = materials ctx)
       ∧ (∀ h, r = Some h → materials ctx1 = <[k := h]> (materials ctx))
       ∧ match get_material_output_node material with
         | None => r = None ∧ ctx1 = ctx
         | Some out =>
             (r, renderer ctx1) = final_export material out obj k s (renderer ctx)
             ∧ exports ctx1 = (exports ctx ++ [(k, s)])%list
         end).
Proof.
  intros Hk. split.
  - intros h Hget. by apply sync_hit with k.
  - intros Hget.
    destruct (get_material_output_node material) as [out |] eqn:Hout.
    + rewrite (sync_miss_export material s obj k out ctx Hk Hget Hout).
      destruct (final_export material out obj k s (renderer ctx)) as [r rs].
      exists r, (after_export k s r rs ctx). simpl.
      split; [done |].
      split; [destruct r; [apply lookup_insert_eq | done] |].
      split; [by intros -> |].
      split; [by intros h -> | done].
    + rewrite (sync_miss_no_output material s obj k ctx Hk Hget Hout).
      exists None, ctx. done.
Qed.

(** Keys other than the call's own keep their lookup. *)
Lemma sync_other_keys (material : Material) (s : string) (obj : option Object)
    (ctx : Ctx) (k' : PyVal) :
  mat_key_of material s obj ≠ Ok k' →
  materials (sync final_export material s obj ctx).2 !! k' = materials ctx !! k'.
Proof.
  intros Hne.
  destruct (sync_registry material s obj ctx) as [E | (k & h & Hk & Hget & _ & E)];
    rewrite E; [done |].
  apply lookup_insert_ne. congruence.
Qed.

(** A binding that exists before the call is there afterwards. *)
Lemma sync_keeps_bindings (material : Material) (s : string)
    (obj : option Object) (ctx : Ctx) (k' : PyVal) (h' : Handle) :
  materials ctx !! k' = Some h' →
  materials (sync final_export material s obj ctx).2 !! k' = Some h'.
Proof.
  intros Hget'.
  destruct (sync_registry material s obj ctx) as [E | (k & h & Hk & Hget & _ & E)];
    rewrite E; [done |].
  rewrite lookup_insert_ne; [done | congruence].
Qed.

(** C10: a call changes the registry at most by binding its own key, and
    only when that key was free; bindings at other keys, and every binding
    that existed before the call, are the same afterwards. *)
Theorem sync_frame (material : Material) (s : string) (obj : option Object)
    (ctx : Ctx) :
  (materials (sync final_export material s obj ctx).2 = materials ctx
   ∨ ∃ k h, mat_key_of material s obj = Ok k
            ∧ materials ctx !! k = None
            ∧ materials (sync final_export material s obj ctx).2
              = <[k := h]> (materials ctx))
  ∧ (∀ k', mat_key_of material s obj ≠ Ok k' →
           materials (sync final_export material s obj ctx).2 !! k'
           = materials ctx !! k')
  ∧ (∀ k' h', materials ctx !! k' = Some h' →
              materials (sync final_export material s obj ctx).2 !! k' = Some h').
Proof.
  split; [| split].
  - destruct (sync_registry material s obj ctx) as [E | (k & h & Hk & Hget & _ & E)].
    + by left.
    + right. by exists k, h.
  - intros k'. apply sync_other_keys.
  - intros k' h'. apply sync_keeps_bindings.
Qed.

(** C7, as the code has it: when a call returns a handle, the same call on
    the resulting context returns that handle and leaves the context, trace
    included, untouched; over both calls the compiler runs exactly once (for
    this key) if the key was free before the first call, and not at all if it
    was registered already. *)
Theorem sync_idempotent (material : Material) (s : string)
    (obj : option Object) (h : Handle) (ctx ctx1 : Ctx) :
  sync final_export material s obj ctx = (Ok (Some h), ctx1) →
  sync final_export material s obj ctx1 = (Ok (Some h), ctx1)
  ∧ (∀ k, mat_key_of material s obj = Ok k →
          materials ctx !! k = None →
          exports (sync final_export material s obj ctx1).2
          = (exports ctx ++ [(k, s)])%list)
  ∧ (∀ k, mat_key_of material s obj = Ok k →
          is_Some (materials ctx !! k) →
          exports (sync final_export material s obj ctx1).2 = exports ctx).
Proof.
  intros Hrun.
  assert (Hagain : sync final_export material s obj ctx1 = (Ok (Some h), ctx1)).
  { sync_inv Hrun.
    - by apply sync_hit with k.
    - apply sync_hit with k; [done |]. simpl. apply lookup_insert_eq. }
  split; [done |].
  rewrite Hagain. simpl. split.
  - intros k Hk Hget. sync_inv Hrun.
    + congruence.
    + simpl. congruence.
  - intros k Hk [h0 Hget]. sync_inv Hrun.
    + done.
    + congruence.
Qed.

(** *** The key [sync] derives *)

Lemma has_uv_map_node_total (material : Material) (tree : NodeTree) :
  node_tree material = Some tree → ∃ b, has_uv_map_node material = Ok b.
Proof.
  intros Htree. unfold has_uv_map_node, get_material_nodes_by_type.
  rewrite Htree. destruct (List.filter _ (nodes tree)); eauto.
Qed.

Lemma has_uv_map_node_true (material : Material) (tree : NodeTree) :
  node_tree material = Some tree →
  (∃ node, In node (nodes tree) ∧ bl_idname node = "ShaderNodeUVMap") →
  has_uv_map_node material = Ok true.
Proof.
  intros Htree (node & Hin & Hid).
  unfold has_uv_map_node, get_material_nodes_by_type. rewrite Htree.
  destruct (List.filter _ (nodes tree)) as [| node' rest] eqn:Hfilter; [| done].
  assert (Hmem : In node []); [| done].
  rewrite <- Hfilter. apply List.filter_In. split; [done |].
  by apply String.eqb_eq.
Qed.

Lemma has_uv_map_node_false (material : Material) (tree : NodeTree) :
  node_tree material = Some tree →
  ¬ (∃ node, In node (nodes tree) ∧ bl_idname node = "ShaderNodeUVMap") →
  has_uv_map_node material = Ok false.
Proof.
  intros Htree Hnone.
  unfold has_uv_map_node, get_material_nodes_by_type. rewrite Htree.
  destruct (List.filter _ (nodes tree)) as [| node rest] eqn:Hfilter; [done |].
  destruct Hnone. exists node.
  assert (Hmem : In node (node :: rest)) by (by left).
  rewrite <- Hfilter in Hmem. apply List.filter_In in Hmem as [Hin Hid].
  split; [done | by apply String.eqb_eq].
Qed.

Lemma mat_key_of_not_Mesh (material : Material) (s : string) (obj : option Object) :
  isinstance_Mesh obj = false →
  mat_key_of material s obj = Ok (key (name_identity (name material)) s).
Proof. unfold mat_key_of. by intros ->. Qed.

(** On a mesh datablock the key is the bare one when the material has no UV
    Map node; with such a node [obj.data] raises. *)
Lemma mat_key_of_Mesh (material : Material) (s : string) (obj : option Object)
    (b : bool) :
  isinstance_Mesh obj = true →
  has_uv_map_node material = Ok b →
  mat_key_of material s obj
  = if b then Raise AttributeError
    else Ok (key (name_identity (name material)) s).
Proof.
  unfold mat_key_of. intros Hmesh ->. rewrite Hmesh.
  destruct b; [| done]. by destruct obj as [[names | names] |].
Qed.

(** A key is derived exactly when the object is no mesh datablock or the
    material has a node tree without UV Map node, and it is the key of the
    bare material name. *)
Lemma mat_key_of_Ok_iff (material : Material) (s : string) (obj : option Object)
    (k : PyVal) :
  mat_key_of material s obj = Ok k
  ↔ k = key (name_identity (name material)) s
    ∧ (isinstance_Mesh obj = false ∨ has_uv_map_node material = Ok false).
Proof.
  destruct (isinstance_Mesh obj) eqn:Hmesh.
  - destruct (has_uv_map_node material) as [b | e] eqn:Huv.
    + rewrite (mat_key_of_Mesh material s obj b Hmesh Huv). destruct b.
      * split; [discriminate | intros [_ [? | ?]]; discriminate].
      * split; [intros [= <-]; auto | intros [-> _]; done].
    + unfold mat_key_of. rewrite Hmesh, Huv.
      split; [discriminate | intros [_ [? | ?]]; discriminate].
  - rewrite (mat_key_of_not_Mesh material s obj Hmesh).
    split; [intros [= <-]; auto | intros [-> _]; done].
Qed.

Lemma mat_key_of_Ok (material : Material) (s : string) (obj : option Object) :
  isinstance_Mesh obj = false ∨ has_uv_map_node material = Ok false →
  mat_key_of material s obj = Ok (key (name_identity (name material)) s).
Proof. intros H. by apply mat_key_of_Ok_iff. Qed.

Lemma mat_key_of_Raise (material : Material) (s : string) (obj : option Object) :
  node_tree material = None → isinstance_Mesh obj = true →
  mat_key_of material s obj = Raise AttributeError.
Proof.
  intros Htree Hmesh.
  unfold mat_key_of, has_uv_map_node, get_material_nodes_by_type.
  by rewrite Hmesh, Htree.
Qed.

(** The derivation raises exactly on a mesh datablock when the material has
    no node tree or has a UV Map node; the exception is [AttributeError]. *)
Lemma mat_key_of_Raise_iff (material : Material) (s : string)
    (obj : option Object) (e : Exn) :
  mat_key_of material s obj = Raise e
  ↔ e = AttributeError
    ∧ isinstance_Mesh obj = true
    ∧ (node_tree material = None ∨ has_uv_map_node material = Ok true).
Proof.
  destruct (isinstance_Mesh obj) eqn:Hmesh.
  - destruct (node_tree material) as [tree |] eqn:Htree.
    + destruct (has_uv_map_node_total _ _ Htree) as [b Huv].
      rewrite (mat_key_of_Mesh material s obj b Hmesh Huv), Huv. destruct b.
      * split; [intros [= <-]; auto | intros [-> _]; done].
      * split; [discriminate | intros (_ & _ & [? | ?]); discriminate].
    + rewrite (mat_key_of_Raise material s obj Htree Hmesh).
      split; [intros [= <-]; auto | intros [-> _]; done].
  - rewrite (mat_key_of_not_Mesh material s obj Hmesh).
    split; [discriminate | intros (_ & ? & _); discriminate].
Qed.

Lemma str_tuple_inj (l1 l2 : list string) : str_tuple l1 = str_tuple l2 → l1 = l2.
Proof.
  unfold str_tuple. intros E. injection E as E.
  revert l2 E. induction l1 as [| x l1 IH]; intros [| y l2] E; simpl in E;
    try discriminate; [done |].
  injection E as -> E. f_equal. by apply IH.
Qed.

Lemma key_inj_identity (M1 M2 : PyVal) (s : string) : key M1 s = key M2 s → M1 = M2.
Proof. unfold key. destruct (String.eqb s "Surface"); congruence. Qed.

(** C6, as the code has it: for a material without node tree or without a
    node flagged as active output, a call whose key is derived returns
    [None] when the key is not registered, returns the registered handle
    when it is, and leaves the context unchanged either way. *)
Theorem sync_no_active_output (material : Material) (s : string)
    (obj : option Object) (k : PyVal) (ctx : Ctx) :
  (node_tree material = None
   ∨ ∃ tree, node_tree material = Some tree
             ∧ ∀ node, In node (nodes tree) → is_active_output node = false) →
  mat_key_of material s obj = Ok k →
  (materials ctx !! k = None →
   sync final_export material s obj ctx = (Ok None, ctx))
  ∧ (∀ h, materials ctx !! k = Some h →
          sync final_export material s obj ctx = (Ok (Some h), ctx)).
Proof.
  intros Hnone Hk.
  assert (Hout : get_material_output_node material = None).
  { destruct Hnone as [Htree | (tree & Htree & Hflags)].
    - by apply get_material_output_node_no_tree.
    - by apply get_material_output_node_none_active with tree. }
  split.
  - intros Hget. by apply sync_miss_no_output with k.
  - intros h Hget. by apply sync_hit with k.
Qed.

(** ** [sync_update] *)

Lemma sync_returns (material : Material) (s : string) (obj : option Object)
    (k : PyVal) (ctx : Ctx) :
  mat_key_of material s obj = Ok k →
  ∃ r ctx1, sync final_export material s obj ctx = (Ok r, ctx1).
Proof.
  intros Hk.
  destruct (sync_cases material s obj ctx); eauto. congruence.
Qed.

Lemma sync_update_raise (material : Material) (obj : option Object) (e : Exn)
    (ctx : Ctx) :
  mat_key_of material "Surface" obj = Raise e →
  sync_update final_export material obj ctx = (Raise e, ctx).
Proof. intros Hk. unfold sync_update, bind, lift. by rewrite Hk. Qed.

(** The membership test followed by [remove_material] amounts to [without]. *)
Lemma guarded_remove (k : PyVal) (ctx : Ctx) :
  (if bool_decide (is_Some (materials ctx !! k))
   then remove_material Handle Renderer k
   else ret Handle Renderer ()) ctx
  = (Ok (), without k ctx).
Proof.
  case_bool_decide as Hin; [done |].
  unfold ret, without. f_equal. destruct ctx as [m rs tr]; simpl in *.
  f_equal. symmetry. apply delete_id.
  by apply eq_None_not_Some.
Qed.

(** The two rounds of [sync_update]: each drops one key and calls [sync],
    the first for Surface with the object, the second for Displacement
    without it. *)
Lemma sync_update_steps (material : Material) (obj : option Object)
    (k : PyVal) (ctx : Ctx) :
  mat_key_of material "Surface" obj = Ok k →
  ∃ r1 c2 r2 c4,
    sync final_export material "Surface" obj (without k ctx) = (Ok r1, c2)
    ∧ sync final_export material "Displacement" None
        (without (key k "Displacement") c2) = (Ok r2, c4)
    ∧ sync_update final_export material obj ctx = (Ok true, c4).
Proof.
  intros Hk.
  destruct (sync_returns material "Surface" obj k (without k ctx) Hk)
    as (r1 & c2 & Hs1).
  destruct (sync_returns material "Displacement" None
              (key (name_identity (name material)) "Displacement")
              (without (key k "Displacement") c2) eq_refl)
    as (r2 & c4 & Hs2).
  exists r1, c2, r2, c4. split; [done |]. split; [done |].
  unfold sync_update, lift, materials_contains.
  unfold bind at 1. rewrite Hk.
  unfold bind at 1. unfold bind at 1.
  rewrite (guarded_remove k ctx).
  unfold bind at 1. rewrite Hs1.
  unfold bind at 1. unfold bind at 1.
  rewrite (guarded_remove (key k "Displacement") c2).
  unfold bind at 1. rewrite Hs2. done.
Qed.

(** Once the key is derived, [sync_update] runs to its last line and returns
    [True], whatever the two compilations give. *)
Lemma sync_update_returns_true (material : Material) (obj : option Object)
    (k : PyVal) (ctx : Ctx) :
  mat_key_of material "Surface" obj = Ok k →
  ∃ ctx1, sync_update final_export material obj ctx = (Ok true, ctx1).
Proof.
  intros Hk.
  destruct (sync_update_steps material obj k ctx Hk) as (r1 & c2 & r2 & c4 & _ & _ & E).
  eauto.
Qed.

End SyncProperties.

(** * Scenarios *)

Import Samples.

Lemma sync_cache_contract_witness :
  sync counting_export glass "Surface" None glass_synced
  = (Ok (Some 0), glass_synced)
  ∧ ∃ r ctx1,
      sync counting_export glass "Displacement" None empty_context = (Ok r, ctx1)
      ∧ materials ctx1 !! PTuple [PStr "Glass"; PStr "Displacement"] = r.
Proof.
  split.
  - apply (proj1 (sync_cache_contract counting_export glass "Surface" None
                    (PStr "Glass") glass_synced eq_refl) 0).
    vm_compute. reflexivity.
  - destruct (proj2 (sync_cache_contract counting_export glass "Displacement" None
                       (PTuple [PStr "Glass"; PStr "Displacement"])
                       empty_context eq_refl) eq_refl)
      as (r & ctx1 & Hrun & Hreg & _).
    exists r, ctx1. split; [exact Hrun | exact Hreg].
Defined.

Lemma sync_frame_witness :
  materials (sync counting_export wood "Surface" (Some object_A) glass_synced).2
    !! PStr "Glass" = Some 0.
Proof.
  apply (proj2 (proj2 (sync_frame counting_export wood "Surface" (Some object_A)
                         glass_synced)) (PStr "Glass") 0).
  vm_compute. reflexivity.
Defined.

Lemma sync_idempotent_witness :
  sync counting_export glass "Surface" None glass_synced
  = (Ok (Some 0), glass_synced)
  ∧ exports (sync counting_export glass "Surface" None glass_synced).2
    = [(PStr "Glass", "Surface")].
Proof.
  assert (Hfirst : sync counting_export glass "Surface" None empty_context
                   = (Ok (Some 0), glass_synced)) by (vm_compute; reflexivity).
  split.
  - exact (proj1 (sync_idempotent counting_export glass "Surface" None 0
                    empty_context glass_synced Hfirst)).
  - exact (proj1 (proj2 (sync_idempotent counting_export glass "Surface" None 0
                           empty_context glass_synced Hfirst))
             (PStr "Glass") eq_refl eq_refl).
Defined.

(** "Glass" is registered by a sync without object; the first sync of it for
    the lamp finds the same key registered and returns the handle, and so
    does the second: the compiler runs in neither call. *)
Lemma sync_twice_on_registered_key :
  mat_key_of glass "Surface" (Some lamp) = mat_key_of glass "Surface" None
  ∧ exports glass_synced = [(PStr "Glass", "Surface")]
  ∧ sync counting_export glass "Surface" (Some lamp) glass_synced
    = (Ok (Some 0), glass_synced)
  ∧ exports (sync counting_export glass "Surface" (Some lamp)
               (sync counting_export glass "Surface" (Some lamp) glass_synced).2).2
    = exports glass_synced.
Proof.
  split; [reflexivity |].
  split; [vm_compute; reflexivity |].
  split; vm_compute; reflexivity.
Qed.

Lemma sync_no_active_output_witness :
  sync counting_export glass_inactive "Displacement" (Some object_A) empty_context
  = (Ok None, empty_context)
  ∧ sync counting_export glass_inactive "Surface" (Some mesh_A) glass_synced
    = (Ok (Some 0), glass_synced).
Proof.
  assert (Hnone : node_tree glass_inactive = None
                  ∨ ∃ tree, node_tree glass_inactive = Some tree
                            ∧ ∀ node, In node (nodes tree) →
                                is_active_output node = false).
  { right. eexists. split; [reflexivity |].
    intros node Hin. simpl in Hin.
    destruct Hin as [<- | [<- | []]]; reflexivity. }
  split.
  - apply (proj1 (sync_no_active_output counting_export glass_inactive
                    "Displacement" (Some object_A)
                    (PTuple [PStr "Glass"; PStr "Displacement"]) empty_context
                    Hnone eq_refl)).
    reflexivity.
  - apply (proj2 (sync_no_active_output counting_export glass_inactive
                    "Surface" (Some mesh_A) (PStr "Glass") glass_synced
                    Hnone eq_refl) 0).
    vm_compute. reflexivity.
Defined.

(** "Glass" is compiled and registered while its output node is active; once
    no node of it is flagged as the active output, a [sync] still returns the
    registered handle, not [None]. *)
Lemma sync_stale_entry :
  Forall (λ node, is_active_output node = false)
    [bsdf_node; output_node (linked_to "Glass BSDF") unlinked false]
  ∧ get_material_output_node glass_inactive = None
  ∧ sync counting_export glass "Surface" None empty_context
    = (Ok (Some 0), glass_synced)
  ∧ sync counting_export glass_inactive "Surface" None glass_synced
    = (Ok (Some 0), glass_synced).
Proof.
  split; [repeat constructor |].
  split; [reflexivity |].
  split; vm_compute; reflexivity.
Qed.

(** C8 at a material without node tree on a mesh object: the test for a UV
    Map node raises before anything else happens, so [sync_update] does not
    return [True]; the context is as before.  [get_material_output_node]
    guards the same access with [if not material.node_tree]. *)
Theorem sync_update_no_tree_on_mesh (Handle Renderer : Type)
    (final_export : Material → Node → option Object → PyVal → string →
                    Renderer → option Handle * Renderer)
    (ctx : RPRContext Handle Renderer) :
  sync_update final_export plain (Some mesh_A) ctx = (Raise AttributeError, ctx)
  ∧ sync final_export plain "Surface" (Some mesh_A) ctx = (Raise AttributeError, ctx)
  ∧ get_material_output_node plain = None.
Proof.
  split; [by apply sync_update_raise |].
  split; [by apply sync_raise | reflexivity].
Qed.

(** C2 at "Wood" (UV Map node, both channels linked) and a mesh datablock
    as [obj], with both entries of "Wood" registered: the test of line 90
    holds, and [obj.data] on line 92 raises before anything is removed or
    compiled.  Both entries stay, and a [sync] afterwards returns the handle
    from before the update. *)
Theorem sync_update_raises_on_mesh_data :
  isinstance_Mesh (Some mesh_A) = true
  ∧ has_uv_map_node wood = Ok true
  ∧ obj_data_rpr_uv_sets_names (Some mesh_A) = Raise AttributeError
  ∧ materials wood_synced_both !! PStr "Wood" = Some 0
  ∧ materials wood_synced_both !! PTuple [PStr "Wood"; PStr "Displacement"] = Some 1
  ∧ sync_update counting_export wood (Some mesh_A) wood_synced_both
    = (Raise AttributeError, wood_synced_both)
  ∧ sync counting_export wood "Surface" None wood_synced_both
    = (Ok (Some 0), wood_synced_both)
  ∧ sync counting_export wood "Displacement" None wood_synced_both
    = (Ok (Some 1), wood_synced_both).
Proof.
  repeat (split; [vm_compute; reflexivity |]).
  vm_compute. reflexivity.
Qed.

(** C4 at "Wood" (UV Map node) and two objects whose meshes have different
    UV sets: an object is no instance of the mesh datablock type, so both
    calls use the key of the bare name, share one entry and one handle, and
    the compiler runs once.  On the mesh datablocks themselves the test
    holds and [obj.data] raises.  Whenever a key is derived at all, it is
    built on the bare name. *)
Theorem sync_uv_key_never_derived :
  (∀ material s obj k,
     mat_key_of material s obj = Ok k →
     k = key (name_identity (name material)) s)
  ∧ has_uv_map_node wood = Ok true
  ∧ obj_data_rpr_uv_sets_names (Some object_A) = Ok ["UVMap"]
  ∧ obj_data_rpr_uv_sets_names (Some object_B) = Ok ["UVMap"; "UVMap2"]
  ∧ sync counting_export wood "Surface" (Some object_A) empty_context
    = (Ok (Some 0), wood_synced)
  ∧ sync counting_export wood "Surface" (Some object_B) wood_synced
    = (Ok (Some 0), wood_synced)
  ∧ materials wood_synced !! PStr "Wood" = Some 0
  ∧ size (materials wood_synced) = 1
  ∧ exports wood_synced = [(PStr "Wood", "Surface")]
  ∧ sync counting_export wood "Surface" (Some mesh_A) empty_context
    = (Raise AttributeError, empty_context)
  ∧ sync counting_export wood "Surface" (Some mesh_B) empty_context
    = (Raise AttributeError, empty_context).
Proof.
  split; [intros material s obj k Hk; by apply mat_key_of_Ok_iff in Hk as [-> _] |].
  repeat (split; [vm_compute; reflexivity |]).
  vm_compute. reflexivity.
Qed.

(** "Glass": Surface compiles and is registered under the bare name,
    Displacement is unlinked, gives [None] and leaves no entry. *)
Example glass_channels :
  sync counting_export glass "Surface" None empty_context
  = (Ok (Some 0), glass_synced)
  ∧ materials glass_synced !! PStr "Glass" = Some 0
  ∧ (sync counting_export glass "Displacement" None glass_synced).1 = Ok None
  ∧ materials (sync counting_export glass "Displacement" None glass_synced).2
      !! PTuple [PStr "Glass"; PStr "Displacement"] = None.
Proof. repeat (split; [vm_compute; reflexivity |]). vm_compute. reflexivity. Qed.

(** * Further properties of the material export *)

(** ** Node lookup *)

(** [List.find] returns the first element that passes the test. *)
Lemma find_first {A : Type} (f : A → bool) (l : list A) (x : A) :
  List.find f l = Some x →
  ∃ before after, l = (before ++ x :: after)%list
                  ∧ f x = true
                  ∧ ∀ y, In y before → f y = false.
Proof.
  induction l as [| a l IH]; simpl; [discriminate |].
  destruct (f a) eqn:Hfa.
  - intros [= ->]. exists [], l. repeat split; [done |]. intros y [].
  - intros Hfind. destruct (IH Hfind) as (before & after & -> & Hfx & Hbefore).
    exists (a :: before), after. repeat split; [done |].
    intros y [<- | Hin]; [done | by apply Hbefore].
Qed.

Lemma is_material_output_true (node : Node) :
  is_material_output node = true
  ↔ bl_idname node = "ShaderNodeOutputMaterial" ∧ is_active_output node = true.
Proof.
  unfold is_material_output. rewrite andb_true_iff, String.eqb_eq. done.
Qed.

(** X1: the output node found is a node of the tree, of type
    ShaderNodeOutputMaterial and flagged active, and no node before it in
    the tree's node order is such a node: with several active output nodes
    the first one wins. *)
Theorem get_material_output_node_first (material : Material) (out : Node) :
  get_material_output_node material = Some out →
  ∃ tree before after,
    node_tree material = Some tree
    ∧ nodes tree = (before ++ out :: after)%list
    ∧ bl_idname out = "ShaderNodeOutputMaterial"
    ∧ is_active_output out = true
    ∧ ∀ node, In node before →
        ¬ (bl_idname node = "ShaderNodeOutputMaterial"
           ∧ is_active_output node = true).
Proof.
  unfold get_material_output_node.
  destruct (node_tree material) as [tree |]; [| discriminate].
  intros Hfind.
  destruct (find_first _ _ _ Hfind) as (before & after & Hnodes & Hout & Hbefore).
  apply is_material_output_true in Hout as [Hid Hact].
  exists tree, before, after. repeat split; try done.
  intros node Hin Hnode. apply is_material_output_true in Hnode.
  rewrite (Hbefore node Hin) in Hnode. discriminate.
Qed.

Lemma get_material_output_node_first_witness :
  ∃ tree before after,
    node_tree Samples.glass = Some tree
    ∧ nodes tree = (before ++ Samples.glass_out :: after)%list
    ∧ bl_idname Samples.glass_out = "ShaderNodeOutputMaterial"
    ∧ is_active_output Samples.glass_out = true
    ∧ ∀ node, In node before →
        ¬ (bl_idname node = "ShaderNodeOutputMaterial"
           ∧ is_active_output node = true).
Proof.
  apply (get_material_output_node_first Samples.glass Samples.glass_out).
  reflexivity.
Defined.

(** X2: no output node is found exactly when the material has no node tree
    or its tree has no node that is both of type ShaderNodeOutputMaterial and
    flagged active (an active flag on a node of another type does not
    count). *)
Theorem get_material_output_node_None_iff (material : Material) :
  get_material_output_node material = None
  ↔ node_tree material = None
    ∨ ∃ tree, node_tree material = Some tree
              ∧ ∀ node, In node (nodes tree) →
                  ¬ (bl_idname node = "ShaderNodeOutputMaterial"
                     ∧ is_active_output node = true).
Proof.
  unfold get_material_output_node.
  destruct (node_tree material) as [tree |]; [| by split; [left |]].
  split.
  - intros Hfind. right. exists tree. split; [done |].
    intros node Hin Hnode. apply is_material_output_true in Hnode.
    rewrite (List.find_none _ _ Hfind node Hin) in Hnode. discriminate.
  - intros [Hno | (tree' & [= <-] & Hnone)]; [discriminate |].
    destruct (List.find is_material_output (nodes tree)) as [out |] eqn:Hfind;
      [| done].
    apply List.find_some in Hfind as [Hin Hout].
    apply is_material_output_true in Hout. by destruct (Hnone out Hin).
Qed.

(** X3: [has_uv_map_node] answers [True] exactly when the node tree has a
    node of type ShaderNodeUVMap, [False] exactly when the tree has none,
    and raises [AttributeError] exactly when the material has no node tree;
    it raises nothing else. *)
Theorem has_uv_map_node_cases (material : Material) :
  (has_uv_map_node material = Ok true
   ↔ ∃ tree, node_tree material = Some tree
             ∧ ∃ node, In node (nodes tree) ∧ bl_idname node = "ShaderNodeUVMap")
  ∧ (has_uv_map_node material = Ok false
     ↔ ∃ tree, node_tree material = Some tree
               ∧ ¬ ∃ node, In node (nodes tree) ∧ bl_idname node = "ShaderNodeUVMap")
  ∧ (∀ e, has_uv_map_node material = Raise e
          ↔ e = AttributeError ∧ node_tree material = None).
Proof.
  destruct (node_tree material) as [tree |] eqn:Htree.
  - assert (Hdec : (∃ node, In node (nodes tree) ∧ bl_idname node = "ShaderNodeUVMap")
                   ∨ ¬ (∃ node, In node (nodes tree) ∧ bl_idname node = "ShaderNodeUVMap")).
    { destruct (List.filter (λ node, String.eqb (bl_idname node) "ShaderNodeUVMap")
                  (nodes tree)) as [| node rest] eqn:Hfilter.
      - right. intros (node & Hin & Hid).
        assert (Hmem : In node []); [| done].
        rewrite <- Hfilter. apply List.filter_In. split; [done |].
        by apply String.eqb_eq.
      - left. exists node.
        assert (Hmem : In node (node :: rest)) by (by left).
        rewrite <- Hfilter in Hmem. apply List.filter_In in Hmem as [Hin Hid].
        split; [done | by apply String.eqb_eq]. }
    destruct Hdec as [Huv | Hnone].
    + rewrite (has_uv_map_node_true material tree Htree Huv).
      split; [split; [intros _; by exists tree | done] |].
      split; [split; [done | intros (tree' & [= <-] & Hno); by destruct Hno] |].
      intros e. split; [done | intros [_ ?]; done].
    + rewrite (has_uv_map_node_false material tree Htree Hnone).
      split; [split; [done | intros (tree' & [= <-] & Hyes); by destruct Hnone] |].
      split; [split; [intros _; by exists tree | done] |].
      intros e. split; [done | intros [_ ?]; done].
  - assert (Hraise : has_uv_map_node material = Raise AttributeError).
    { unfold has_uv_map_node, get_material_nodes_by_type. by rewrite Htree. }
    rewrite Hraise.
    split; [split; [done | intros (tree & ? & _); done] |].
    split; [split; [done | intros (tree & ? & _); done] |].
    intros e. split; [intros [= <-]; done | intros [-> _]; done].
Qed.

(** ** The socket resolver *)

Lemma getitem_Ok_In {A : Type} (coll : list (string * A)) (k : string) (x : A) :
  getitem coll k = Ok x → In (k, x) coll.
Proof.
  induction coll as [| [k' y] coll IH]; simpl; [discriminate |].
  destruct (String.eqb_spec k' k) as [-> | _].
  - intros [= ->]. by left.
  - intros H. right. by apply IH.
Qed.

Lemma getitem_Raise_iff {A : Type} (coll : list (string * A)) (k : string) (e : Exn) :
  getitem coll k = Raise e ↔ e = KeyError ∧ ∀ x, ¬ In (k, x) coll.
Proof.
  induction coll as [| [k' y] coll IH]; simpl.
  - split; [intros [= <-]; split; [done | tauto] | intros [-> _]; done].
  - destruct (String.eqb_spec k' k) as [-> | Hne].
    + split; [discriminate |]. intros [_ Hnone]. destruct (Hnone y). by left.
    + rewrite IH. split; intros [-> Hnone]; (split; [done |]).
      * intros x [[= ? ?] | Hin]; [done | by apply (Hnone x)].
      * intros x Hin. apply (Hnone x). by right.
Qed.

(** X4: a producing node is returned exactly when the material has an
    active output node whose socket of that name exists, is linked, and has
    a valid first link; the result is that link's source node. *)
Theorem get_material_input_node_Some_iff (material : Material)
    (input_socket_key : string) (producer : string) :
  get_material_input_node material input_socket_key = Ok (Some producer)
  ↔ ∃ out socket_in link0 rest,
      get_material_output_node material = Some out
      ∧ getitem (inputs out) input_socket_key = Ok socket_in
      ∧ is_linked socket_in = true
      ∧ links socket_in = link0 :: rest
      ∧ is_valid link0 = true
      ∧ from_node link0 = producer.
Proof.
  unfold get_material_input_node. split.
  - destruct (get_material_output_node material) as [out |]; [| discriminate].
    destruct (getitem (inputs out) input_socket_key) as [socket_in | e] eqn:Hget;
      [| discriminate].
    destruct (is_linked socket_in) eqn:Hlinked; simpl; [| discriminate].
    destruct (links socket_in) as [| link0 rest] eqn:Hlinks; [discriminate |].
    destruct (is_valid link0) eqn:Hvalid; simpl; [| discriminate].
    intros [= <-]. by exists out, socket_in, link0, rest.
  - intros (out & socket_in & link0 & rest & -> & -> & -> & -> & -> & <-). done.
Qed.

(** X5: the resolver raises [KeyError] exactly when there is an output node
    without an input of the requested name, [IndexError] exactly when that
    input is flagged linked but has no link, and no other exception. *)
Theorem get_material_input_node_Raise_iff (material : Material)
    (input_socket_key : string) (e : Exn) :
  get_material_input_node material input_socket_key = Raise e
  ↔ ∃ out,
      get_material_output_node material = Some out
      ∧ ((e = KeyError ∧ ∀ socket_in, ¬ In (input_socket_key, socket_in) (inputs out))
         ∨ (e = IndexError
            ∧ ∃ socket_in, getitem (inputs out) input_socket_key = Ok socket_in
                           ∧ is_linked socket_in = true
                           ∧ links socket_in = [])).
Proof.
  unfold get_material_input_node.
  destruct (get_material_output_node material) as [out |];
    [| split; [discriminate | intros (out & ? & _); done]].
  destruct (getitem (inputs out) input_socket_key) as [socket_in | e'] eqn:Hget.
  - assert (Hno : ¬ ∀ s, ¬ In (input_socket_key, s) (inputs out)).
    { intros Hnone. apply (Hnone socket_in). by apply getitem_Ok_In. }
    destruct (is_linked socket_in) eqn:Hlinked; simpl.
    + destruct (links socket_in) as [| link0 rest] eqn:Hlinks.
      * split.
        -- intros [= <-]. exists out. split; [done |]. right.
           split; [done |]. by exists socket_in.
        -- intros (out' & [= <-] & [[_ Hnone] | [-> _]]); [by destruct Hno | done].
      * split; [destruct (is_valid link0); discriminate |].
        intros (out' & [= <-] & [[_ Hnone] | [_ (s & Hs & _ & Hl)]]);
          [by destruct Hno |].
        rewrite Hget in Hs. injection Hs as <-. rewrite Hlinks in Hl. discriminate.
    + split; [discriminate |].
      intros (out' & [= <-] & [[_ Hnone] | [_ (s & Hs & Hl & _)]]);
        [by destruct Hno |].
      rewrite Hget in Hs. injection Hs as <-. rewrite Hlinked in Hl. discriminate.
  - apply getitem_Raise_iff in Hget as [-> Hnone]. split.
    + intros [= <-]. exists out. split; [done |]. by left.
    + intros (out' & [= <-] & [[-> _] | [_ (s & Hs & _)]]); [done |].
      apply getitem_Ok_In in Hs. by destruct (Hnone s).
Qed.

(** ** Keys *)

(** No Python value is the first item of itself. *)
Lemma PyVal_not_first_item (v : PyVal) (rest : list PyVal) : v ≠ PTuple (v :: rest).
Proof.
  revert rest.
  induction v as [s | items IH] using PyVal_countable.PyVal_nested_ind;
    intros rest E; [discriminate |].
  injection E as E.
  destruct items as [| x items']; [discriminate |].
  injection E as Hx Hrest.
  apply Forall_cons in IH as [IHx _].
  apply (IHx items'). by rewrite Hx at 1.
Qed.

(** X6: for every value [M], not only for identities, the key of [M] is [M]
    itself exactly for the socket "Surface": the key of any other socket is
    a different registry key than the Surface one. *)
Theorem key_fixed_iff_Surface (M : PyVal) (s : string) :
  key M s = M ↔ s = "Surface".
Proof.
  unfold key. destruct (String.eqb_spec s "Surface") as [-> | Hne].
  - done.
  - split; [| done]. intros E. symmetry in E.
    by apply PyVal_not_first_item in E.
Qed.

(** The Surface key [sync] and [sync_update] derive is an identity. *)
Lemma mat_key_of_Surface_identity (material : Material) (obj : option Object)
    (k : PyVal) :
  mat_key_of material "Surface" obj = Ok k → is_identity k.
Proof.
  intros Hk. apply mat_key_of_Ok_iff in Hk as [-> _].
  rewrite key_Surface. constructor.
Qed.

Section SyncFacts.

Context {Handle Renderer : Type}.
Variable final_export :
  Material → Node → option Object → PyVal → string →
  Renderer → option Handle * Renderer.

Abbreviation Context_ := (RPRContext Handle Renderer).

Lemma sync_returns_lookup (material : Material) (s : string)
    (obj : option Object) (k : PyVal) (ctx : Context_) :
  mat_key_of material s obj = Ok k →
  (sync final_export material s obj ctx).1
  = Ok (materials (sync final_export material s obj ctx).2 !! k).
Proof.
  intros Hk.
  destruct (sync_cases final_export material s obj ctx) as
    [e He | k' h Hk' Hget | k' Hk' Hget Hout | k' out r rs Hk' Hget Hout Hfe];
    simpl; try congruence.
  assert (k' = k) as -> by congruence.
  destruct r as [h |]; simpl; [by rewrite lookup_insert_eq | congruence].
Qed.

(** X7: whatever [sync] returns is what the registry holds under the call's
    key afterwards: a handle is returned only if it is registered, and
    [None] only if the key is free. *)
Theorem sync_result_is_lookup (material : Material) (s : string)
    (obj : option Object) (k : PyVal) (ctx : Context_) :
  mat_key_of material s obj = Ok k →
  (sync final_export material s obj ctx).1
  = Ok (materials (sync final_export material s obj ctx).2 !! k).
Proof. apply sync_returns_lookup. Qed.

(** X8: [sync] raises exactly when [obj] is a mesh datablock and the
    material has no node tree or has a UV Map node; the exception is
    [AttributeError] and the context is left as it was.  In every other
    case it returns. *)
Theorem sync_raises_iff (material : Material) (s : string)
    (obj : option Object) (ctx : Context_) (e : Exn) :
  ((sync final_export material s obj ctx).1 = Raise e
   ↔ e = AttributeError
     ∧ isinstance_Mesh obj = true
     ∧ (node_tree material = None ∨ has_uv_map_node material = Ok true))
  ∧ ((sync final_export material s obj ctx).1 = Raise e →
     (sync final_export material s obj ctx).2 = ctx).
Proof.
  rewrite <- (mat_key_of_Raise_iff material s obj e).
  destruct (mat_key_of material s obj) as [k | e'] eqn:Hk.
  - destruct (sync_returns final_export material s obj k ctx Hk) as (r & ctx1 & ->).
    simpl. split; [split; discriminate | discriminate].
  - rewrite (sync_raise final_export material s obj e' ctx Hk). simpl.
    split; [split; intros [= ->]; done | done].
Qed.

(** X9: the outcome of [sync_update] in closed form: [True] when [obj] is
    no mesh datablock or the material has a node tree without UV Map node,
    [AttributeError] otherwise. *)
Theorem sync_update_outcome (material : Material) (obj : option Object)
    (ctx : Context_) :
  (sync_update final_export material obj ctx).1
  = if isinstance_Mesh obj then
      match has_uv_map_node material with
      | Ok false => Ok true
      | _ => Raise AttributeError
      end
    else Ok true.
Proof.
  destruct (mat_key_of material "Surface" obj) as [k | e] eqn:Hk.
  - destruct (sync_update_steps final_export material obj k ctx Hk)
      as (r1 & c2 & r2 & c4 & _ & _ & ->). simpl.
    apply mat_key_of_Ok_iff in Hk as [_ [-> | Huv]]; [done |].
    rewrite Huv. by destruct (isinstance_Mesh obj).
  - rewrite (sync_update_raise final_export material obj e ctx Hk). simpl.
    apply mat_key_of_Raise_iff in Hk as (-> & -> & [Htree | ->]); [| done].
    destruct (has_uv_map_node_cases material) as (_ & _ & Hraise).
    by rewrite (proj2 (Hraise AttributeError) (conj eq_refl Htree)).
Qed.

(** The key of the second round of [sync_update] is not the Surface key and
    not the key dropped before it. *)
Lemma bare_displacement_key_other (material : Material) (k : PyVal) :
  is_identity k →
  k ≠ key k "Displacement"
  ∧ mat_key_of material "Displacement" None ≠ Ok k.
Proof.
  intros Hid. split.
  - rewrite key_other by discriminate. by apply identity_not_keyed.
  - unfold mat_key_of. rewrite key_other by discriminate.
    intros [= E]. symmetry in E. by apply identity_not_keyed in E.
Qed.

(** X10: after [sync_update] the Surface key holds what a fresh compilation
    of the Surface channel gave, started from the renderer state before the
    update: nothing when the material has no output node or the compiler
    returned [None], never the old entry as such. *)
Theorem sync_update_surface_rebuilt (material : Material) (obj : option Object)
    (k : PyVal) (ctx : Context_) :
  mat_key_of material "Surface" obj = Ok k →
  materials (sync_update final_export material obj ctx).2 !! k
  = match get_material_output_node material with
    | None => None
    | Some out => (final_export material out obj k "Surface" (renderer ctx)).1
    end.
Proof.
  intros Hk.
  pose proof (mat_key_of_Surface_identity material obj k Hk) as Hid.
  destruct (bare_displacement_key_other material k Hid) as [Hdk Hbare].
  destruct (sync_update_steps final_export material obj k ctx Hk)
    as (r1 & c2 & r2 & c4 & Hs1 & Hs2 & ->).
  simpl.
  pose proof (sync_other_keys final_export material "Displacement" None
                (without (key k "Displacement") c2) k Hbare) as Hframe.
  rewrite Hs2 in Hframe. simpl in Hframe.
  rewrite Hframe, lookup_delete_ne by done.
  pose proof (sync_returns_lookup material "Surface" obj k (without k ctx) Hk)
    as Hres.
  rewrite Hs1 in Hres. simpl in Hres. injection Hres as Hres. rewrite <- Hres.
  assert (Hfree : materials (without k ctx) !! k = None)
    by (simpl; apply lookup_delete_eq).
  destruct (get_material_output_node material) as [out |] eqn:Hout.
  - rewrite (sync_miss_export final_export material "Surface" obj k out
               (without k ctx) Hk Hfree Hout) in Hs1.
    by injection Hs1 as <- _.
  - rewrite (sync_miss_no_output final_export material "Surface" obj k
               (without k ctx) Hk Hfree Hout) in Hs1.
    by injection Hs1 as <- _.
Qed.

(** X11: when the object is no mesh, or the material has no UV Map node,
    [sync_update] rebuilds the Displacement entry under the key a [sync] for
    Displacement derives for that object: afterwards the key holds what a
    fresh compilation of the channel gave (run without the object, after the
    Surface round), and nothing when there is no output node. *)
Theorem sync_update_displacement_rebuilt (material : Material)
    (obj : option Object) (ctx : Context_) :
  isinstance_Mesh obj = false ∨ has_uv_map_node material = Ok false →
  mat_key_of material "Displacement" obj
  = Ok (key (name_identity (name material)) "Displacement")
  ∧ materials (sync_update final_export material obj ctx).2
      !! key (name_identity (name material)) "Displacement"
    = match get_material_output_node material with
      | None => None
      | Some out =>
          (final_export material out None
             (key (name_identity (name material)) "Displacement") "Displacement"
             (renderer (sync final_export material "Surface" obj
                          (without (name_identity (name material)) ctx)).2)).1
      end.
Proof.
  intros Hbare.
  assert (Hkey : ∀ s, mat_key_of material s obj
                      = Ok (key (name_identity (name material)) s)).
  { intros s. destruct Hbare as [Hmesh | Huv].
    - by apply mat_key_of_not_Mesh.
    - destruct (isinstance_Mesh obj) eqn:Hmesh; [| by apply mat_key_of_not_Mesh].
      by rewrite (mat_key_of_Mesh material s obj false Hmesh Huv). }
  split; [apply Hkey |].
  pose proof (Hkey "Surface") as Hk. rewrite key_Surface in Hk.
  set (k := name_identity (name material)) in *.
  set (dk := key k "Displacement").
  destruct (sync_update_steps final_export material obj k ctx Hk)
    as (r1 & c2 & r2 & c4 & Hs1 & Hs2 & ->).
  rewrite Hs1. simpl. fold dk in Hs2.
  assert (Hdk : mat_key_of material "Displacement" None = Ok dk) by done.
  pose proof (sync_returns_lookup material "Displacement" None dk (without dk c2) Hdk)
    as Hres.
  rewrite Hs2 in Hres. simpl in Hres. injection Hres as Hres. rewrite <- Hres.
  assert (Hfree : materials (without dk c2) !! dk = None)
    by (simpl; apply lookup_delete_eq).
  destruct (get_material_output_node material) as [out |] eqn:Hout.
  - rewrite (sync_miss_export final_export material "Displacement" None dk out
               (without dk c2) Hdk Hfree Hout) in Hs2.
    by injection Hs2 as <- _.
  - rewrite (sync_miss_no_output final_export material "Displacement" None dk
               (without dk c2) Hdk Hfree Hout) in Hs2.
    by injection Hs2 as <- _.
Qed.

(** X12: for a material without output node [sync_update] only removes: the
    Surface entry and the Displacement entry built on it are dropped,
    nothing is compiled and every other part of the context is untouched. *)
Theorem sync_update_without_output (material : Material) (obj : option Object)
    (k : PyVal) (ctx : Context_) :
  get_material_output_node material = None →
  mat_key_of material "Surface" obj = Ok k →
  sync_update final_export material obj ctx
  = (Ok true, without (key k "Displacement") (without k ctx)).
Proof.
  intros Hout Hk.
  destruct (sync_update_steps final_export material obj k ctx Hk)
    as (r1 & c2 & r2 & c4 & Hs1 & Hs2 & ->).
  rewrite (sync_miss_no_output final_export material "Surface" obj k
             (without k ctx) Hk) in Hs1;
    [| simpl; apply lookup_delete_eq | done].
  injection Hs1 as _ <-.
  pose proof (mat_key_of_Surface_identity material obj k Hk) as Hid.
  destruct (mat_key_of material "Displacement" None) as [dk | e] eqn:Hdk;
    [| discriminate].
  destruct (materials (without (key k "Displacement") (without k ctx)) !! dk)
    as [h |] eqn:Hget.
  - (* the bare Displacement key is registered: a hit, nothing changes *)
    rewrite (sync_hit final_export material "Displacement" None dk h _ Hdk Hget)
      in Hs2.
    by injection Hs2 as _ <-.
  - rewrite (sync_miss_no_output final_export material "Displacement" None dk _
               Hdk Hget Hout) in Hs2.
    by injection Hs2 as _ <-.
Qed.

(** X13: [sync_update] touches at most three registry keys: the Surface key
    of the (material, object) pair, the Displacement key built on it, and
    the Displacement key of the bare material name.  Every other key keeps
    its entry. *)
Theorem sync_update_frame (material : Material) (obj : option Object)
    (k k' : PyVal) (ctx : Context_) :
  mat_key_of material "Surface" obj = Ok k →
  k' ≠ k →
  k' ≠ key k "Displacement" →
  k' ≠ key (name_identity (name material)) "Displacement" →
  materials (sync_update final_export material obj ctx).2 !! k'
  = materials ctx !! k'.
Proof.
  intros Hk Hne1 Hne2 Hne3.
  destruct (sync_update_steps final_export material obj k ctx Hk)
    as (r1 & c2 & r2 & c4 & Hs1 & Hs2 & ->).
  simpl.
  pose proof (sync_other_keys final_export material "Displacement" None
                (without (key k "Displacement") c2) k') as Hf2.
  rewrite Hs2 in Hf2. simpl in Hf2.
  rewrite Hf2 by (unfold mat_key_of; intros [= E]; by destruct Hne3).
  rewrite lookup_delete_ne by (intros E; by destruct Hne2).
  pose proof (sync_other_keys final_export material "Surface" obj
                (without k ctx) k') as Hf1.
  rewrite Hs1 in Hf1. simpl in Hf1.
  rewrite Hf1 by (intros E; rewrite Hk in E; injection E as E; by destruct Hne1).
  rewrite lookup_delete_ne by (intros E; by destruct Hne1). done.
Qed.

(** X14: with an output node, [sync_update] always compiles the Surface
    channel, once and first, and compiles at most one thing more, the
    Displacement channel under the key of the bare name. *)
Theorem sync_update_compiles (material : Material) (obj : option Object)
    (k : PyVal) (out : Node) (ctx : Context_) :
  mat_key_of material "Surface" obj = Ok k →
  get_material_output_node material = Some out →
  exports (sync_update final_export material obj ctx).2
  = (exports ctx ++ [(k, "Surface")])%list
  ∨ exports (sync_update final_export material obj ctx).2
    = (exports ctx ++ [(k, "Surface");
                       (key (name_identity (name material)) "Displacement",
                        "Displacement")])%list.
Proof.
  intros Hk Hout.
  destruct (sync_update_steps final_export material obj k ctx Hk)
    as (r1 & c2 & r2 & c4 & Hs1 & Hs2 & ->).
  simpl.
  rewrite (sync_miss_export final_export material "Surface" obj k out
             (without k ctx) Hk) in Hs1;
    [| simpl; apply lookup_delete_eq | done].
  injection Hs1 as _ <-.
  set (dk := key (name_identity (name material)) "Displacement").
  assert (Hdk : mat_key_of material "Displacement" None = Ok dk) by done.
  match type of Hs2 with
  | sync _ _ _ _ ?c = _ => destruct (materials c !! dk) as [h |] eqn:Hget
  end.
  - rewrite (sync_hit final_export material "Displacement" None dk h _ Hdk Hget)
      in Hs2.
    injection Hs2 as _ <-. by left.
  - rewrite (sync_miss_export final_export material "Displacement" None dk out _
               Hdk Hget Hout) in Hs2.
    injection Hs2 as _ <-. right. simpl. by rewrite <- app_assoc.
Qed.

End SyncFacts.

Lemma sync_result_is_lookup_witness :
  (sync counting_export glass "Displacement" None glass_synced).1
  = Ok (materials (sync counting_export glass "Displacement" None glass_synced).2
          !! PTuple [PStr "Glass"; PStr "Displacement"]).
Proof.
  apply (sync_result_is_lookup counting_export glass "Displacement" None
           (PTuple [PStr "Glass"; PStr "Displacement"]) glass_synced).
  reflexivity.
Defined.

Lemma sync_update_surface_rebuilt_witness :
  materials (sync_update counting_export wood (Some object_A) wood_synced).2
    !! PStr "Wood"
  = (counting_export wood wood_out (Some object_A) (PStr "Wood")
       "Surface" (renderer wood_synced)).1.
Proof.
  apply (sync_update_surface_rebuilt counting_export wood (Some object_A)
           (PStr "Wood") wood_synced).
  reflexivity.
Defined.

Lemma sync_update_displacement_rebuilt_witness :
  mat_key_of wood "Displacement" (Some lamp)
  = Ok (key (name_identity "Wood") "Displacement")
  ∧ materials (sync_update counting_export wood (Some lamp) glass_synced).2
      !! key (name_identity "Wood") "Displacement"
    = (counting_export wood wood_out None
         (key (name_identity "Wood") "Displacement") "Displacement"
         (renderer (sync counting_export wood "Surface" (Some lamp)
                      (without (name_identity "Wood") glass_synced)).2)).1.
Proof.
  apply (sync_update_displacement_rebuilt counting_export wood (Some lamp)
           glass_synced).
  left. reflexivity.
Defined.

Lemma sync_update_without_output_witness :
  sync_update counting_export glass_inactive None glass_synced
  = (Ok true,
     without (key (PStr "Glass") "Displacement") (without (PStr "Glass") glass_synced)).
Proof.
  apply (sync_update_without_output counting_export glass_inactive None
           (PStr "Glass") glass_synced); reflexivity.
Defined.

Lemma sync_update_frame_witness :
  materials (sync_update counting_export wood (Some object_A) glass_synced).2
    !! PStr "Glass"
  = materials glass_synced !! PStr "Glass".
Proof.
  apply (sync_update_frame counting_export wood (Some object_A)
           (PStr "Wood") (PStr "Glass") glass_synced);
    [reflexivity | discriminate | discriminate | discriminate].
Defined.

Lemma sync_update_compiles_witness :
  exports (sync_update counting_export glass None empty_context).2
  = ([] ++ [(PStr "Glass", "Surface")])%list
  ∨ exports (sync_update counting_export glass None empty_context).2
    = ([] ++ [(PStr "Glass", "Surface");
              (key (name_identity "Glass") "Displacement", "Displacement")])%list.
Proof.
  apply (sync_update_compiles counting_export glass None (PStr "Glass") glass_out
           empty_context); reflexivity.
Defined.

(** * Properties of the view layer's render passes *)

Module ViewLayerFacts.

Import ViewLayer.

(** ** The pass tables *)

(** Pass names are unique over the three tables. *)
Lemma all_names_NoDup : NoDup (map name all_entries).
Proof. apply (bool_decide_unpack _). vm_compute. reflexivity. Qed.

Lemma all_entries_NoDup : NoDup all_entries.
Proof. apply (NoDup_fmap_1 name). apply all_names_NoDup. Qed.

Lemma entry_of_name (a b : AovInfo) :
  In a all_entries → In b all_entries → name a = name b → a = b.
Proof.
  intros Ha Hb Hname.
  apply list_elem_of_In, list_elem_of_lookup in Ha as [i Hi].
  apply list_elem_of_In, list_elem_of_lookup in Hb as [j Hj].
  assert (Hni : map name all_entries !! i = Some (name a))
    by (by rewrite list_lookup_fmap, Hi).
  assert (Hnj : map name all_entries !! j = Some (name a))
    by (by rewrite list_lookup_fmap, Hj, Hname).
  pose proof (NoDup_lookup _ _ _ _ all_names_NoDup Hni Hnj) as ->.
  congruence.
Qed.

Lemma aovs_info_index (i j : nat) (a b : AovInfo) :
  aovs_info !! i = Some a → aovs_info !! j = Some b → name a = name b → i = j.
Proof.
  intros Hi Hj Hname.
  assert (HN : NoDup (map name aovs_info)).
  { pose proof all_names_NoDup as H. unfold all_entries in H.
    rewrite map_app in H. by apply NoDup_app in H as [H _]. }
  apply (NoDup_lookup _ _ _ (name a) HN).
  - by rewrite list_lookup_fmap, Hi.
  - by rewrite list_lookup_fmap, Hj, Hname.
Qed.

Lemma In_aovs_info_all (a : AovInfo) : In a aovs_info → In a all_entries.
Proof. intros H. unfold all_entries. apply in_or_app. by left. Qed.

Lemma In_cryptomatte_all (a : AovInfo) :
  In a cryptomatte_aovs_info → In a all_entries.
Proof.
  intros H. unfold all_entries. apply in_or_app. right.
  apply in_or_app. by left.
Qed.

Lemma In_contour_all : In contour_info all_entries.
Proof.
  unfold all_entries. apply in_or_app. right. apply in_or_app. right. by left.
Qed.

(** A table entry is no cryptomatte entry and not the contour entry. *)
Lemma aovs_info_apart (a : AovInfo) :
  In a aovs_info → ¬ In a cryptomatte_aovs_info ∧ a ≠ contour_info.
Proof.
  intros Ha.
  pose proof all_entries_NoDup as H. unfold all_entries in H.
  apply NoDup_app in H as (_ & Hapart & _).
  apply list_elem_of_In in Ha. specialize (Hapart a Ha).
  split.
  - intros Hc. apply Hapart. apply list_elem_of_In, in_or_app. by left.
  - intros ->. apply Hapart. apply list_elem_of_In, in_or_app. right. by left.
Qed.

Lemma cryptomatte_entries_table (allowed : bool) (self : ViewLayerProperties)
    (a : AovInfo) :
  In a (cryptomatte_entries allowed self) → In a cryptomatte_aovs_info.
Proof.
  unfold cryptomatte_entries. intros H. apply in_app_or in H as [H | H].
  - destruct (allowed && crytomatte_aov_material self); [| done].
    simpl in H. simpl. tauto.
  - destruct (allowed && crytomatte_aov_object self); [| done].
    simpl in H. simpl. tauto.
Qed.

Lemma contour_entries_table (self : ViewLayerProperties) (a : AovInfo) :
  In a (contour_entries self) → a = contour_info.
Proof.
  unfold contour_entries. destruct (use_contour_render self); [| done].
  by intros [<- | []].
Qed.

(** Among the passes of entries of the tables, the one of a given name is
    there exactly when its entry is. *)
Lemma pass_named_iff (layer : string) (entries : list AovInfo) (info : AovInfo) :
  (∀ a, In a entries → In a all_entries) →
  In info all_entries →
  (∃ p, In p (map (pass_of layer) entries) ∧ pass_name p = name info)
  ↔ In info entries.
Proof.
  intros Hsub Hinfo. split.
  - intros (p & Hp & Hname). apply in_map_iff in Hp as (a & <- & Ha).
    simpl in Hname. by rewrite <- (entry_of_name a info (Hsub a Ha) Hinfo Hname).
  - intros Hin. exists (pass_of layer info). split; [by apply in_map | done].
Qed.

Section ExportAovsFacts.

Variable aov_code : AOV → Z.
Variable layer : string.
Variable use_pass_combined use_pass_z : bool.
Variable enable_adaptive cryptomatte_allowed : bool.

Abbreviation skipped_ := (skipped aov_code use_pass_combined use_pass_z enable_adaptive).
Abbreviation loop_ :=
  (export_enabled aov_code layer use_pass_combined use_pass_z enable_adaptive).
Abbreviation export_ :=
  (export_aovs aov_code layer use_pass_combined use_pass_z enable_adaptive
     cryptomatte_allowed).

(** The loop over the flags: it appends the passes and AOVs of the entries
    [sel], which are the table entries with their flag on that no [continue]
    filters out; it raises only for a flag that is on past the table. *)
Lemma export_enabled_shape (flags : list bool) :
  ∀ (i : nat) (st : Exported),
    ∃ sel : list AovInfo,
      passes (loop_ i flags st).2 = (passes st ++ map (pass_of layer) sel)%list
      ∧ enabled (loop_ i flags st).2 = (enabled st ++ map rpr sel)%list
      ∧ (∀ info, In info sel
                 ↔ ∃ j, flags !! j = Some true
                        ∧ aovs_info !! (i + j) = Some info
                        ∧ skipped_ info = false)
      ∧ ((loop_ i flags st).1 = Ok tt
         ∨ (loop_ i flags st).1 = Raise IndexError)
      ∧ ((loop_ i flags st).1 = Raise IndexError
         ↔ ∃ j, flags !! j = Some true ∧ (length aovs_info ≤ i + j)%nat).
Proof.
  induction flags as [| flag rest IH]; intros i st.
  - exists []. simpl. rewrite !app_nil_r.
    split; [done |]. split; [done |].
    split; [split; [done | intros (j & Hj & _); done] |].
    split; [by left |].
    split; [discriminate | intros (j & Hj & _); done].
  - simpl. destruct flag; simpl.
    + destruct (aovs_info !! i) as [aov |] eqn:Hi.
      * assert (Hlt : (i < length aovs_info)%nat) by (by eapply lookup_lt_Some).
        destruct (skipped_ aov) eqn:Hskip.
        -- destruct (IH (S i) st) as (sel & Hp & He & Hsel & Hres & Hraise).
           exists sel. split; [done |]. split; [done |].
           split; [| split; [done |]].
           ++ intros info. rewrite Hsel. split.
              ** intros (j & Hj & Hinfo & Hs). exists (S j).
                 rewrite Nat.add_succ_r. done.
              ** intros ([| j] & Hj & Hinfo & Hs).
                 --- rewrite Nat.add_0_r, Hi in Hinfo. congruence.
                 --- exists j. rewrite Nat.add_succ_r in Hinfo. done.
           ++ rewrite Hraise. split.
              ** intros (j & Hj & Hge). exists (S j). split; [done | (simpl in *; lia)].
              ** intros ([| j] & Hj & Hge); [(simpl in *; lia) |].
                 exists j. simpl in Hj. split; [done | (simpl in *; lia)].
        -- destruct (IH (S i) (enable_aov (rpr aov) (add_pass aov layer st)))
             as (sel & Hp & He & Hsel & Hres & Hraise).
           exists (aov :: sel). simpl in Hp, He.
           split; [by rewrite Hp, <- app_assoc |].
           split; [by rewrite He, <- app_assoc |].
           split; [| split; [done |]].
           ++ intros info. simpl. rewrite Hsel. split.
              ** intros [<- | (j & Hj & Hinfo & Hs)].
                 --- exists 0. rewrite Nat.add_0_r. done.
                 --- exists (S j). rewrite Nat.add_succ_r. done.
              ** intros ([| j] & Hj & Hinfo & Hs).
                 --- left. rewrite Nat.add_0_r, Hi in Hinfo. congruence.
                 --- right. exists j. rewrite Nat.add_succ_r in Hinfo. done.
           ++ rewrite Hraise. split.
              ** intros (j & Hj & Hge). exists (S j). split; [done | (simpl in *; lia)].
              ** intros ([| j] & Hj & Hge); [(simpl in *; lia) |].
                 exists j. simpl in Hj. split; [done | (simpl in *; lia)].
      * assert (Hge : (length aovs_info ≤ i)%nat) by (by apply lookup_ge_None).
        exists []. simpl. rewrite !app_nil_r.
        split; [done |]. split; [done |].
        split; [| split; [by right |]].
        -- split; [done |]. intros (j & _ & Hinfo & _).
           apply lookup_lt_Some in Hinfo. (simpl in *; lia).
        -- split; [| done]. intros _. exists 0. split; [done | (simpl in *; lia)].
    + destruct (IH (S i) st) as (sel & Hp & He & Hsel & Hres & Hraise).
      exists sel. split; [done |]. split; [done |].
      split; [| split; [done |]].
      * intros info. rewrite Hsel. split.
        -- intros (j & Hj & Hinfo & Hs). exists (S j).
           rewrite Nat.add_succ_r. done.
        -- intros ([| j] & Hj & Hinfo & Hs); [done |].
           exists j. rewrite Nat.add_succ_r in Hinfo. done.
      * rewrite Hraise. split.
        -- intros (j & Hj & Hge). exists (S j). split; [done | (simpl in *; lia)].
        -- intros ([| j] & Hj & Hge); [done |].
           exists j. simpl in Hj. split; [done | (simpl in *; lia)].
Qed.

(** The whole of [export_aovs]: Color and Depth are enabled, then come the
    selected table entries, then, unless the loop raised, the cryptomatte
    and contour entries. *)
Lemma export_aovs_shape (self : ViewLayerProperties) (st : Exported) :
  ∃ sel : list AovInfo,
    (∀ info, In info sel
             ↔ ∃ j, enable_aovs self !! j = Some true
                    ∧ aovs_info !! j = Some info
                    ∧ skipped_ info = false)
    ∧ ((export_ self st).1 = Raise IndexError
       ↔ ∃ j, enable_aovs self !! j = Some true ∧ (length aovs_info ≤ j)%nat)
    ∧ (((export_ self st).1 = Ok tt
        ∧ enabled (export_ self st).2
          = (enabled st ++ [AOV_COLOR; AOV_DEPTH] ++ map rpr sel
             ++ map rpr (cryptomatte_entries cryptomatte_allowed self))%list
        ∧ passes (export_ self st).2
          = (passes st
             ++ map (pass_of layer)
                  (sel ++ cryptomatte_entries cryptomatte_allowed self
                   ++ contour_entries self))%list)
       ∨ ((export_ self st).1 = Raise IndexError
          ∧ enabled (export_ self st).2
            = (enabled st ++ [AOV_COLOR; AOV_DEPTH] ++ map rpr sel)%list
          ∧ passes (export_ self st).2
            = (passes st ++ map (pass_of layer) sel)%list)).
Proof.
  destruct (export_enabled_shape (enable_aovs self) 0
              (enable_aov AOV_DEPTH (enable_aov AOV_COLOR st)))
    as (sel & Hp & He & Hsel & Hres & Hraise).
  exists sel. split; [exact Hsel |].
  unfold export_aovs, cryptomatte_entries, contour_entries.
  destruct (loop_ 0 (enable_aovs self)
              (enable_aov AOV_DEPTH (enable_aov AOV_COLOR st))) as [r st1].
  simpl in Hp, He, Hres, Hraise.
  destruct Hres as [-> | ->].
  - split.
    { rewrite <- Hraise.
      destruct (cryptomatte_allowed && crytomatte_aov_material self);
        destruct (cryptomatte_allowed && crytomatte_aov_object self);
        destruct (use_contour_render self); simpl; split; discriminate. }
    left.
    destruct (cryptomatte_allowed && crytomatte_aov_material self);
      destruct (cryptomatte_allowed && crytomatte_aov_object self);
      destruct (use_contour_render self); simpl;
      rewrite ?Hp, ?He, ?map_app; simpl;
      rewrite ?app_nil_r, <- ?app_assoc; simpl; done.
  - simpl. split; [by rewrite <- Hraise |].
    right. rewrite Hp, He, <- !app_assoc. done.
Qed.

Lemma selected_in_table (flags : list bool) (sel : list AovInfo) :
  (∀ info, In info sel
           ↔ ∃ j, flags !! j = Some true
                  ∧ aovs_info !! j = Some info
                  ∧ skipped_ info = false) →
  ∀ info, In info sel → In info aovs_info.
Proof.
  intros Hsel info Hin. apply Hsel in Hin as (j & _ & Hj & _).
  apply list_elem_of_In, list_elem_of_lookup. by exists j.
Qed.

(** The calls [export_aovs] adds, in terms of the selected entries. *)
Lemma export_aovs_new (self : ViewLayerProperties) (st : Exported) :
  ∃ sel : list AovInfo,
    (∀ info, In info sel
             ↔ ∃ j, enable_aovs self !! j = Some true
                    ∧ aovs_info !! j = Some info
                    ∧ skipped_ info = false)
    ∧ (((export_ self st).1 = Ok tt
        ∧ new_enabled st (export_ self st).2
          = ([AOV_COLOR; AOV_DEPTH] ++ map rpr sel
             ++ map rpr (cryptomatte_entries cryptomatte_allowed self))%list
        ∧ new_passes st (export_ self st).2
          = map (pass_of layer)
              (sel ++ cryptomatte_entries cryptomatte_allowed self
               ++ contour_entries self))
       ∨ ((export_ self st).1 = Raise IndexError
          ∧ new_enabled st (export_ self st).2
            = ([AOV_COLOR; AOV_DEPTH] ++ map rpr sel)%list
          ∧ new_passes st (export_ self st).2 = map (pass_of layer) sel)).
Proof.
  destruct (export_aovs_shape self st)
    as (sel & Hsel & _ & [(Hok & He & Hp) | (Hraise & He & Hp)]);
    exists sel; (split; [exact Hsel |]); [left | right];
    unfold new_enabled, new_passes; rewrite He, Hp, !drop_app_length; done.
Qed.

(** The entries whose passes are added are entries of the tables. *)
Lemma added_entries_all (self : ViewLayerProperties) (sel : list AovInfo) :
  (∀ info, In info sel → In info aovs_info) →
  ∀ a, In a (sel ++ cryptomatte_entries cryptomatte_allowed self
             ++ contour_entries self) → In a all_entries.
Proof.
  intros Hsub a Ha. apply in_app_or in Ha as [Ha | Ha].
  - by apply In_aovs_info_all, Hsub.
  - apply in_app_or in Ha as [Ha | Ha].
    + by eapply In_cryptomatte_all, cryptomatte_entries_table.
    + apply contour_entries_table in Ha as ->. apply In_contour_all.
Qed.

(** A pass named like the table entry at index [j] is added exactly when
    flag [j] is on and no [continue] applies to the entry. *)
Lemma table_pass_iff (self : ViewLayerProperties) (st : Exported)
    (j : nat) (info : AovInfo) :
  aovs_info !! j = Some info →
  (∃ p, In p (new_passes st (export_ self st).2) ∧ pass_name p = name info)
  ↔ enable_aovs self !! j = Some true ∧ skipped_ info = false.
Proof.
  intros Hj.
  assert (Hin : In info aovs_info)
    by (apply list_elem_of_In, list_elem_of_lookup; by exists j).
  destruct (aovs_info_apart info Hin) as [Hnc Hno].
  destruct (export_aovs_new self st)
    as (sel & Hsel & [(_ & _ & ->) | (_ & _ & ->)]).
  - rewrite pass_named_iff;
      [| by apply added_entries_all, (selected_in_table (enable_aovs self))
       | by apply In_aovs_info_all].
    rewrite !in_app_iff, Hsel. split.
    + intros [(j' & Hflag & Hj' & Hskip) | [Hc | Hc]].
      * by rewrite (aovs_info_index j j' info info Hj Hj' eq_refl).
      * by apply cryptomatte_entries_table in Hc.
      * by apply contour_entries_table in Hc.
    + intros [Hflag Hskip]. left. by exists j.
  - rewrite pass_named_iff;
      [| by intros a Ha; apply In_aovs_info_all,
            (selected_in_table (enable_aovs self) sel Hsel)
       | by apply In_aovs_info_all].
    rewrite Hsel. split.
    + intros (j' & Hflag & Hj' & Hskip).
      by rewrite (aovs_info_index j j' info info Hj Hj' eq_refl).
    + intros [Hflag Hskip]. by exists j.
Qed.

(** X16: [export_aovs] raises exactly when a flag is on at an index past
    the end of [aovs_info]; the exception is the [IndexError] of
    [self.aovs_info[i]].  With a flag vector no longer than the table, as the
    property's size makes it, it returns. *)
Theorem export_aovs_raises_iff (self : ViewLayerProperties) (st : Exported)
    (e : Exn) :
  ((export_ self st).1 = Raise e
   ↔ e = IndexError
     ∧ ∃ j, enable_aovs self !! j = Some true ∧ (length aovs_info ≤ j)%nat)
  ∧ ((length (enable_aovs self) ≤ length aovs_info)%nat →
     (export_ self st).1 = Ok tt).
Proof.
  destruct (export_aovs_shape self st) as (sel & _ & Hraise & Hcases).
  assert (Hiff : (export_ self st).1 = Raise e
                 ↔ e = IndexError
                   ∧ ∃ j, enable_aovs self !! j = Some true
                          ∧ (length aovs_info ≤ j)%nat).
  { rewrite <- Hraise.
    destruct Hcases as [(Hok & _) | (Hr & _)].
    - rewrite Hok. split; [discriminate | intros [_ ?]; done].
    - rewrite Hr. split; [intros [= <-]; done | intros [-> _]; done]. }
  split; [exact Hiff |].
  intros Hlen.
  destruct Hcases as [(Hok & _) | (Hr & _)]; [done |].
  apply Hraise in Hr as (j & Hj & Hge).
  apply lookup_lt_Some in Hj. lia.
Qed.

(** X17: whatever the flags are, the first two AOVs [export_aovs] enables
    are Color and Depth, in this order, also when the loop raises later. *)
Theorem export_aovs_color_depth_first (self : ViewLayerProperties)
    (st : Exported) :
  take 2 (new_enabled st (export_ self st).2) = [AOV_COLOR; AOV_DEPTH].
Proof.
  destruct (export_aovs_new self st)
    as (sel & _ & [(_ & -> & _) | (_ & -> & _)]); done.
Qed.

Lemma entry_channels (a : AovInfo) :
  In a all_entries →
  (1 ≤ String.length (channel a) ≤ 4)%nat.
Proof.
  intros Ha.
  assert (Hall : Forall (λ a, (1 ≤ String.length (channel a) ≤ 4)%nat) all_entries)
    by (repeat constructor; simpl; lia).
  rewrite Forall_forall in Hall. by apply Hall, list_elem_of_In.
Qed.

(** X18: every pass [export_aovs] adds is for the given layer, has as many
    channels as its channel string has letters, and that is between one and
    four. *)
Theorem export_aovs_passes_wellformed (self : ViewLayerProperties)
    (st : Exported) (p : RenderPass) :
  In p (new_passes st (export_ self st).2) →
  pass_layer p = layer
  ∧ pass_channels p = String.length (pass_chan_id p)
  ∧ (1 ≤ pass_channels p ≤ 4)%nat.
Proof.
  destruct (export_aovs_new self st)
    as (sel & Hsel & [(_ & _ & ->) | (_ & _ & ->)]);
    intros Hp; apply in_map_iff in Hp as (a & <- & Ha); simpl;
    (split; [done |]); (split; [done |]); apply entry_channels.
  - by apply (added_entries_all self sel
                (selected_in_table (enable_aovs self) sel Hsel)).
  - by apply In_aovs_info_all, (selected_in_table (enable_aovs self) sel Hsel).
Qed.

(** X19: a pass with the name of the table entry at index [j] is added
    exactly when flag [j] is on and none of the three filters applies to the
    entry (Color Variance without adaptive sampling, Combined or Depth
    already a pass of the host's view layer). *)
Theorem export_aovs_table_pass_iff (self : ViewLayerProperties) (st : Exported)
    (j : nat) (info : AovInfo) :
  aovs_info !! j = Some info →
  (∃ p, In p (new_passes st (export_ self st).2) ∧ pass_name p = name info)
  ↔ enable_aovs self !! j = Some true ∧ skipped_ info = false.
Proof. apply table_pass_iff. Qed.

(** X20: without adaptive sampling no pass named "Color Variance" is added,
    whatever the flags and whatever the values of the [pyrpr] constants. *)
Theorem export_aovs_no_variance (self : ViewLayerProperties) (st : Exported)
    (p : RenderPass) :
  enable_adaptive = false →
  In p (new_passes st (export_ self st).2) →
  pass_name p ≠ "Color Variance".
Proof.
  intros Hadaptive Hp Hname.
  assert (H30 : aovs_info !! 30
                = Some {| rpr := AOV_VARIANCE; name := "Color Variance";
                          channel := "RGB" |}) by reflexivity.
  destruct (proj1 (table_pass_iff self st 30 _ H30)) as [_ Hskip];
    [by exists p |].
  unfold skipped in Hskip. simpl in Hskip.
  rewrite Z.eqb_refl, Hadaptive in Hskip. discriminate.
Qed.

(** X21: a pass the host's view layer renders itself is not added again:
    no "Combined" pass with [use_pass_combined], no "Depth" pass with
    [use_pass_z]. *)
Theorem export_aovs_host_passes (self : ViewLayerProperties) (st : Exported)
    (p : RenderPass) :
  In p (new_passes st (export_ self st).2) →
  (use_pass_combined = true → pass_name p ≠ "Combined")
  ∧ (use_pass_z = true → pass_name p ≠ "Depth").
Proof.
  intros Hp. split; intros Hflag Hname.
  - assert (H0 : aovs_info !! 0
                 = Some {| rpr := AOV_COLOR; name := "Combined";
                           channel := "RGBA" |}) by reflexivity.
    destruct (proj1 (table_pass_iff self st 0 _ H0)) as [_ Hskip];
      [by exists p |].
    unfold skipped in Hskip. simpl in Hskip.
    rewrite Hflag, orb_true_r in Hskip. discriminate.
  - assert (H1 : aovs_info !! 1
                 = Some {| rpr := AOV_DEPTH; name := "Depth";
                           channel := "Z" |}) by reflexivity.
    destruct (proj1 (table_pass_iff self st 1 _ H1)) as [_ Hskip];
      [by exists p |].
    unfold skipped in Hskip. simpl in Hskip.
    rewrite Hflag, orb_true_r in Hskip. discriminate.
Qed.

(** X22: when [export_aovs] returns, the contour pass "Outline" is the last
    pass added if contour rendering is on and is not added otherwise; no AOV
    is enabled for it, so the AOVs enabled are two more than the other
    passes. *)
Theorem export_aovs_contour (self : ViewLayerProperties) (st : Exported) :
  (export_ self st).1 = Ok tt →
  (use_contour_render self = true →
   last (new_passes st (export_ self st).2) = Some (pass_of layer contour_info))
  ∧ (use_contour_render self = false →
     ∀ p, In p (new_passes st (export_ self st).2) → pass_name p ≠ "Outline")
  ∧ (length (new_enabled st (export_ self st).2)
       + length (contour_entries self)
     = 2 + length (new_passes st (export_ self st).2))%nat.
Proof.
  intros Hok.
  destruct (export_aovs_new self st)
    as (sel & Hsel & [(_ & He & Hp) | (Hraise & _)]); [| congruence].
  rewrite He, Hp.
  pose proof (added_entries_all self sel
                (selected_in_table (enable_aovs self) sel Hsel)) as Hall.
  split; [| split].
  - intros Hc. unfold contour_entries. rewrite Hc.
    rewrite !app_assoc, map_app. simpl. apply last_snoc.
  - intros Hc p Hin Hname.
    assert (Hex : ∃ q, In q (map (pass_of layer)
                               (sel ++ cryptomatte_entries cryptomatte_allowed self
                                ++ contour_entries self))
                       ∧ pass_name q = name contour_info) by (by exists p).
    apply pass_named_iff in Hex; [| done | apply In_contour_all].
    unfold contour_entries in Hex. rewrite Hc, app_nil_r in Hex.
    apply in_app_or in Hex as [Hs | Hcr].
    + apply (selected_in_table (enable_aovs self) sel Hsel) in Hs.
      by destruct (aovs_info_apart _ Hs) as [_ Hne].
    + apply cryptomatte_entries_table in Hcr. simpl in Hcr.
      repeat (destruct Hcr as [Hcr | Hcr]; [discriminate Hcr |]). done.
  - simpl. rewrite !length_app, !length_map, !length_app. lia.
Qed.

(** X23: when [export_aovs] returns, the passes of the three material
    cryptomatte entries are added exactly when cryptomatte is allowed and
    the material switch is on, those of the three object entries exactly
    when it is allowed and the object switch is on. *)
Theorem export_aovs_cryptomatte (self : ViewLayerProperties) (st : Exported)
    (info : AovInfo) :
  (export_ self st).1 = Ok tt →
  (In info (take 3 cryptomatte_aovs_info) →
   ((∃ p, In p (new_passes st (export_ self st).2) ∧ pass_name p = name info)
    ↔ cryptomatte_allowed && crytomatte_aov_material self = true))
  ∧ (In info (drop 3 cryptomatte_aovs_info) →
     ((∃ p, In p (new_passes st (export_ self st).2) ∧ pass_name p = name info)
      ↔ cryptomatte_allowed && crytomatte_aov_object self = true)).
Proof.
  intros Hok.
  destruct (export_aovs_new self st)
    as (sel & Hsel & [(_ & _ & ->) | (Hraise & _)]); [| congruence].
  pose proof (selected_in_table (enable_aovs self) sel Hsel) as Hsub.
  pose proof (added_entries_all self sel Hsub) as Hall.
  assert (Hcases : ∀ part,
            (∀ a, In a part → In a cryptomatte_aovs_info) →
            In info part →
            (∃ p, In p (map (pass_of layer)
                          (sel ++ cryptomatte_entries cryptomatte_allowed self
                           ++ contour_entries self))
                  ∧ pass_name p = name info)
            ↔ In info (cryptomatte_entries cryptomatte_allowed self)).
  { intros part Hpart Hin.
    rewrite pass_named_iff; [| done | by apply In_cryptomatte_all, Hpart].
    rewrite !in_app_iff. split; [| tauto].
    intros [Hs | [Hc | Hc]]; [| done |].
    - destruct (aovs_info_apart info (Hsub info Hs)) as [Hno _].
      destruct Hno. by apply Hpart.
    - apply contour_entries_table in Hc. subst info.
      apply Hpart in Hin. simpl in Hin.
      repeat (destruct Hin as [Hin | Hin]; [discriminate Hin |]). done. }
  split; intros Hin.
  - rewrite (Hcases (take 3 cryptomatte_aovs_info)); [| simpl; tauto | done].
    unfold cryptomatte_entries.
    simpl in Hin. destruct Hin as [<- | [<- | [<- | []]]];
      destruct (cryptomatte_allowed && crytomatte_aov_material self);
      destruct (cryptomatte_allowed && crytomatte_aov_object self); simpl;
      (split; [intros H; try done;
               repeat (destruct H as [H | H]; [discriminate H |]); done
              | intros H; try done; tauto]).
  - rewrite (Hcases (drop 3 cryptomatte_aovs_info)); [| simpl; tauto | done].
    unfold cryptomatte_entries.
    simpl in Hin. destruct Hin as [<- | [<- | [<- | []]]];
      destruct (cryptomatte_allowed && crytomatte_aov_material self);
      destruct (cryptomatte_allowed && crytomatte_aov_object self); simpl;
      (split; [intros H; try done;
               repeat (destruct H as [H | H]; [discriminate H |]); done
              | intros H; try done; tauto]).
Qed.

End ExportAovsFacts.

(** ** [enable_aov_by_name] *)

(** A name is that of a table entry, or of none. *)
Lemma classic_name (wanted : string) :
  (∃ j info, aovs_info !! j = Some info ∧ name info = wanted)
  ∨ (∀ a, In a aovs_info → name a ≠ wanted).
Proof.
  destruct (List.find (λ a, String.eqb (name a) wanted) aovs_info) as [info |] eqn:Hfind.
  - left. apply List.find_some in Hfind as [Hin Hname].
    apply String.eqb_eq in Hname.
    apply list_elem_of_In, list_elem_of_lookup in Hin as [j Hj]. by exists j, info.
  - right. intros a Ha Hname.
    pose proof (List.find_none _ _ Hfind a Ha) as Hne. simpl in Hne.
    apply String.eqb_neq in Hne. done.
Qed.

(** The loop stops at the first entry of the wanted name. *)
Lemma enable_in_found (infos : list AovInfo) (wanted : string) (flags : list bool) :
  ∀ (i j : nat) (info : AovInfo),
    infos !! j = Some info →
    name info = wanted →
    (∀ j' a, (j' < j)%nat → infos !! j' = Some a → name a ≠ wanted) →
    enable_in i infos wanted flags
    = if Nat.ltb (i + j) (length flags) then Ok (<[i + j := true]> flags)
      else Raise IndexError.
Proof.
  induction infos as [| a rest IH]; intros i j info Hj Hname Hfirst; [done |].
  destruct j as [| j]; simpl.
  - injection Hj as ->. rewrite Hname, String.eqb_refl, Nat.add_0_r. done.
  - destruct (String.eqb_spec (name a) wanted) as [Ha | _].
    + by destruct (Hfirst 0%nat a ltac:(lia) eq_refl).
    + rewrite (IH (S i) j info Hj Hname).
      * by rewrite Nat.add_succ_r.
      * intros j' b Hlt Hb. apply (Hfirst (S j') b); [lia | done].
Qed.

Lemma enable_in_not_found (infos : list AovInfo) (wanted : string)
    (flags : list bool) (i : nat) :
  (∀ a, In a infos → name a ≠ wanted) →
  enable_in i infos wanted flags = Ok flags.
Proof.
  revert i. induction infos as [| a rest IH]; intros i Hnone; [done |].
  simpl. destruct (String.eqb_spec (name a) wanted) as [Ha | _].
  - destruct (Hnone a); [by left | done].
  - apply IH. intros b Hb. apply Hnone. by right.
Qed.

Lemma enable_aov_by_name_at (self : ViewLayerProperties) (j : nat) (info : AovInfo) :
  aovs_info !! j = Some info →
  enable_aov_by_name self (name info)
  = if Nat.ltb j (length (enable_aovs self))
    then Ok {| enable_aovs := <[j := true]> (enable_aovs self);
               crytomatte_aov_object := crytomatte_aov_object self;
               crytomatte_aov_material := crytomatte_aov_material self;
               use_contour_render := use_contour_render self |}
    else Raise IndexError.
Proof.
  intros Hj. unfold enable_aov_by_name.
  rewrite (enable_in_found aovs_info (name info) (enable_aovs self) 0 j info Hj eq_refl).
  - simpl. by destruct (Nat.ltb j (length (enable_aovs self))).
  - intros j' a Hlt Ha Hname.
    pose proof (aovs_info_index j' j a info Ha Hj Hname). lia.
Qed.

(** X24: for the name of the table entry at index [j],
    [enable_aov_by_name] switches on flag [j] and nothing else; it raises
    [IndexError] if the flag vector is too short to have that index. *)
Theorem enable_aov_by_name_known (self : ViewLayerProperties) (j : nat)
    (info : AovInfo) :
  aovs_info !! j = Some info →
  enable_aov_by_name self (name info)
  = if Nat.ltb j (length (enable_aovs self))
    then Ok {| enable_aovs := <[j := true]> (enable_aovs self);
               crytomatte_aov_object := crytomatte_aov_object self;
               crytomatte_aov_material := crytomatte_aov_material self;
               use_contour_render := use_contour_render self |}
    else Raise IndexError.
Proof. apply enable_aov_by_name_at. Qed.

(** X25: for a name that is in no entry of [aovs_info] (a cryptomatte or
    contour name, or a misspelt one) [enable_aov_by_name] changes nothing
    and does not raise. *)
Theorem enable_aov_by_name_unknown (self : ViewLayerProperties) (wanted : string) :
  (∀ a, In a aovs_info → name a ≠ wanted) →
  enable_aov_by_name self wanted = Ok self.
Proof.
  intros Hnone. unfold enable_aov_by_name.
  rewrite (enable_in_not_found aovs_info wanted (enable_aovs self) 0 Hnone).
  by destruct self.
Qed.

Lemma enable_in_result (infos : list AovInfo) (wanted : string)
    (flags flags' : list bool) (i : nat) :
  enable_in i infos wanted flags = Ok flags' →
  flags' = flags ∨ ∃ j, (j < length flags)%nat ∧ flags' = <[j := true]> flags.
Proof.
  revert i. induction infos as [| a rest IH]; intros i; simpl.
  - intros [= <-]. by left.
  - destruct (String.eqb (name a) wanted); [| apply IH].
    destruct (Nat.ltb_spec i (length flags)); [| discriminate].
    intros [= <-]. right. by exists i.
Qed.

(** X26: [enable_aov_by_name] only ever switches flags on: the vector keeps
    its length, every flag that was on stays on, the other properties are
    unchanged, and a second call with the same name changes nothing more. *)
Theorem enable_aov_by_name_only_sets (self self' : ViewLayerProperties)
    (wanted : string) :
  enable_aov_by_name self wanted = Ok self' →
  length (enable_aovs self') = length (enable_aovs self)
  ∧ (∀ i, enable_aovs self !! i = Some true → enable_aovs self' !! i = Some true)
  ∧ crytomatte_aov_object self' = crytomatte_aov_object self
  ∧ crytomatte_aov_material self' = crytomatte_aov_material self
  ∧ use_contour_render self' = use_contour_render self
  ∧ enable_aov_by_name self' wanted = Ok self'.
Proof.
  unfold enable_aov_by_name at 1.
  destruct (enable_in 0 aovs_info wanted (enable_aovs self)) as [flags' | e] eqn:Hrun;
    [| discriminate].
  intros [= <-].
  cbn [enable_aovs crytomatte_aov_object crytomatte_aov_material use_contour_render].
  pose proof (enable_in_result _ _ _ _ _ Hrun) as Hres.
  split; [| split; [| split; [done | split; [done | split; [done |]]]]].
  - destruct Hres as [-> | (j & _ & ->)]; [done | apply length_insert].
  - intros i Hi. destruct Hres as [-> | (j & Hj & ->)]; [done |].
    destruct (decide (j = i)) as [-> | Hne].
    + by apply list_lookup_insert_eq.
    + by rewrite list_lookup_insert_ne.
  - unfold enable_aov_by_name.
    cbn [enable_aovs crytomatte_aov_object crytomatte_aov_material use_contour_render].
    assert (Hagain : enable_in 0 aovs_info wanted flags' = Ok flags').
    { destruct (classic_name wanted) as [(j & info & Hj & <-) | Hnone].
      - rewrite (enable_in_found aovs_info (name info) _ 0 j info Hj eq_refl) in Hrun
          by (intros j' a Hlt Ha Hname;
              pose proof (aovs_info_index j' j a info Ha Hj Hname); lia).
        rewrite (enable_in_found aovs_info (name info) _ 0 j info Hj eq_refl)
          by (intros j' a Hlt Ha Hname;
              pose proof (aovs_info_index j' j a info Ha Hj Hname); lia).
        rewrite Nat.add_0_l in *.
        destruct (Nat.ltb_spec j (length (enable_aovs self))); [| discriminate].
        injection Hrun as <-. rewrite length_insert.
        destruct (Nat.ltb_spec j (length (enable_aovs self))); [| lia].
        by rewrite list_insert_insert_eq.
      - by apply enable_in_not_found. }
    by rewrite Hagain.
Qed.

(** X27: after [enable_aov_by_name] has succeeded for the name of a table
    entry, [export_aovs] adds the pass of that name, unless one of its three
    filters applies to the entry. *)
Theorem enable_then_export (aov_code : AOV → Z) (layer : string)
    (use_pass_combined use_pass_z enable_adaptive cryptomatte_allowed : bool)
    (self self' : ViewLayerProperties) (st : Exported) (j : nat) (info : AovInfo) :
  aovs_info !! j = Some info →
  enable_aov_by_name self (name info) = Ok self' →
  skipped aov_code use_pass_combined use_pass_z enable_adaptive info = false →
  ∃ p, In p (new_passes st
               (export_aovs aov_code layer use_pass_combined use_pass_z
                  enable_adaptive cryptomatte_allowed self' st).2)
       ∧ pass_name p = name info.
Proof.
  intros Hj Hrun Hskip.
  rewrite (enable_aov_by_name_at self j info Hj) in Hrun.
  destruct (Nat.ltb_spec j (length (enable_aovs self))) as [Hlt |]; [| discriminate].
  injection Hrun as <-.
  apply (table_pass_iff aov_code layer use_pass_combined use_pass_z
           enable_adaptive cryptomatte_allowed _ st j info Hj).
  split; [| done]. cbn [enable_aovs]. by apply list_lookup_insert_eq.
Qed.

(** ** Sample runs *)

Lemma export_aovs_passes_wellformed_witness :
  pass_layer (pass_of "View Layer" contour_info) = "View Layer"
  ∧ pass_channels (pass_of "View Layer" contour_info)
    = String.length (pass_chan_id (pass_of "View Layer" contour_info))
  ∧ (1 ≤ pass_channels (pass_of "View Layer" contour_info) ≤ 4)%nat.
Proof.
  apply (export_aovs_passes_wellformed sample_code "View Layer" false false
           false false
           {| enable_aovs := default_enable_aovs; crytomatte_aov_object := false;
              crytomatte_aov_material := false; use_contour_render := true |}
           nothing_exported).
  vm_compute. right. right. left. reflexivity.
Defined.

Lemma export_aovs_table_pass_iff_witness :
  (∃ p, In p (new_passes nothing_exported
                (export_aovs sample_code "View Layer" false true false false
                   default_properties nothing_exported).2)
        ∧ pass_name p = "Depth")
  ↔ enable_aovs default_properties !! 1%nat = Some true
    ∧ skipped sample_code false true false
        {| rpr := AOV_DEPTH; name := "Depth"; channel := "Z" |} = false.
Proof.
  apply (export_aovs_table_pass_iff sample_code "View Layer" false true false false
           default_properties nothing_exported 1
           {| rpr := AOV_DEPTH; name := "Depth"; channel := "Z" |}).
  reflexivity.
Defined.

Lemma export_aovs_no_variance_witness :
  In (pass_of "View Layer" {| rpr := AOV_COLOR; name := "Combined"; channel := "RGBA" |})
    (new_passes nothing_exported
       (export_aovs sample_code "View Layer" false false false false
          {| enable_aovs := replicate 32 true; crytomatte_aov_object := false;
             crytomatte_aov_material := false; use_contour_render := false |}
          nothing_exported).2)
  ∧ pass_name (pass_of "View Layer"
                 {| rpr := AOV_COLOR; name := "Combined"; channel := "RGBA" |})
    ≠ "Color Variance".
Proof.
  assert (Hin : In (pass_of "View Layer"
                      {| rpr := AOV_COLOR; name := "Combined"; channel := "RGBA" |})
                  (new_passes nothing_exported
                     (export_aovs sample_code "View Layer" false false false false
                        {| enable_aovs := replicate 32 true;
                           crytomatte_aov_object := false;
                           crytomatte_aov_material := false;
                           use_contour_render := false |}
                        nothing_exported).2))
    by (vm_compute; left; reflexivity).
  split; [exact Hin |].
  exact (export_aovs_no_variance sample_code "View Layer" false false false false
           _ nothing_exported _ eq_refl Hin).
Defined.

Lemma export_aovs_host_passes_witness :
  pass_name (pass_of "View Layer" contour_info) ≠ "Combined"
  ∧ pass_name (pass_of "View Layer" contour_info) ≠ "Depth".
Proof.
  assert (Hin : In (pass_of "View Layer" contour_info)
                  (new_passes nothing_exported
                     (export_aovs sample_code "View Layer" true true false false
                        {| enable_aovs := default_enable_aovs;
                           crytomatte_aov_object := false;
                           crytomatte_aov_material := false;
                           use_contour_render := true |}
                        nothing_exported).2))
    by (vm_compute; left; reflexivity).
  pose proof (export_aovs_host_passes sample_code "View Layer" true true false
                false _ nothing_exported _ Hin) as [Hc Hz].
  split; [exact (Hc eq_refl) | exact (Hz eq_refl)].
Defined.

Lemma export_aovs_contour_witness :
  last (new_passes nothing_exported
          (export_aovs sample_code "View Layer" false false false false
             {| enable_aovs := default_enable_aovs; crytomatte_aov_object := false;
                crytomatte_aov_material := false; use_contour_render := true |}
             nothing_exported).2)
  = Some (pass_of "View Layer" contour_info).
Proof.
  apply (export_aovs_contour sample_code "View Layer" false false false false
           {| enable_aovs := default_enable_aovs; crytomatte_aov_object := false;
              crytomatte_aov_material := false; use_contour_render := true |}
           nothing_exported); reflexivity.
Defined.

Lemma export_aovs_cryptomatte_witness :
  (∃ p, In p (new_passes nothing_exported
                (export_aovs sample_code "View Layer" false false false true
                   {| enable_aovs := default_enable_aovs;
                      crytomatte_aov_object := false;
                      crytomatte_aov_material := true;
                      use_contour_render := false |}
                   nothing_exported).2)
        ∧ pass_name p = "CryptoMaterial01")
  ↔ true && true = true.
Proof.
  apply (export_aovs_cryptomatte sample_code "View Layer" false false false true
           {| enable_aovs := default_enable_aovs; crytomatte_aov_object := false;
              crytomatte_aov_material := true; use_contour_render := false |}
           nothing_exported
           {| rpr := AOV_CRYPTOMATTE_MAT1; name := "CryptoMaterial01";
              channel := "RGBA" |});
    [reflexivity | right; left; reflexivity].
Defined.

Lemma enable_aov_by_name_known_witness :
  enable_aov_by_name default_properties "UV"
  = Ok {| enable_aovs := <[3%nat := true]> default_enable_aovs;
          crytomatte_aov_object := false;
          crytomatte_aov_material := false;
          use_contour_render := false |}.
Proof.
  apply (enable_aov_by_name_known default_properties 3
           {| rpr := AOV_UV; name := "UV"; channel := "UVA" |}).
  reflexivity.
Defined.

Lemma enable_aov_by_name_unknown_witness :
  enable_aov_by_name default_properties "Outline" = Ok default_properties.
Proof.
  apply (enable_aov_by_name_unknown default_properties "Outline").
  intros a Ha Hname.
  destruct (aovs_info_apart a Ha) as [_ Hne]. apply Hne.
  apply entry_of_name; [by apply In_aovs_info_all | apply In_contour_all | done].
Defined.

Lemma enable_aov_by_name_only_sets_witness :
  enable_aov_by_name
    {| enable_aovs := <[3%nat := true]> default_enable_aovs;
       crytomatte_aov_object := false; crytomatte_aov_material := false;
       use_contour_render := false |} "UV"
  = Ok {| enable_aovs := <[3%nat := true]> default_enable_aovs;
          crytomatte_aov_object := false; crytomatte_aov_material := false;
          use_contour_render := false |}.
Proof.
  apply (enable_aov_by_name_only_sets default_properties _ "UV").
  vm_compute. reflexivity.
Defined.

Lemma enable_then_export_witness :
  ∃ p, In p (new_passes nothing_exported
               (export_aovs sample_code "View Layer" false false false false
                  {| enable_aovs := <[3%nat := true]> default_enable_aovs;
                     crytomatte_aov_object := false;
                     crytomatte_aov_material := false;
                     use_contour_render := false |}
                  nothing_exported).2)
       ∧ pass_name p = "UV".
Proof.
  apply (enable_then_export sample_code "View Layer" false false false false
           default_properties _ nothing_exported 3
           {| rpr := AOV_UV; name := "UV"; channel := "UVA" |});
    [reflexivity | vm_compute; reflexivity | reflexivity].
Defined.

End ViewLayerFacts.
